(** * mix-check: the multi-band playback engine (src/services/audioEngine.ts)
      and the stem handlers of the UI (src/App.tsx, src/components/Visualizer.tsx)

    The engine is a class with mutable fields that drives the browser's
    Web Audio API.  It is embedded here by explicit state passing:

    - JavaScript numbers (seconds, gains, frequencies) are idealised as exact
      rationals [Q]; rounding of IEEE doubles, NaN and the infinities are not
      modelled.  Where two times are compared after arithmetic the statements
      use [==] ([Qeq]), where a field is copied they use [=].
    - The [AudioContext] is the store of the audio nodes: a finite map from
      node references to nodes, the list of connections, the allocation
      counter and the engine clock [currentTime].
    - A method of the class becomes a function from the engine record to the
      engine record after the call.  A method that can throw ([play], [seek],
      [loadFile]) returns in addition what it threw, if anything: a
      JavaScript exception leaves every assignment made before it in place.
    - The component state of App.tsx is a record; a handler is a function on
      the state of the latest render, and a pending [setTimeout] callback is
      a value in a list of timers. *)

From Stdlib Require Import QArith Lqa String.
From Stdlib Require Import Qround DecimalString.
From stdpp Require Import base option list gmap.

Local Open Scope Q_scope.

(** ** The platform: the part of the Web Audio API the engine uses *)

Module WebAudio.

Abbreviation NodeRef := nat.

Record AudioBuffer := mkAudioBuffer {
  duration : Q;
  sampleRate : Q;
  numberOfChannels : nat
}.

Inductive ContextState := Suspended | Running | Closed.

Inductive BiquadFilterType :=
| lowpass | highpass | bandpass | lowshelf | highshelf | peaking | notch | allpass.

(** [setTargetAtTime(target, startTime, timeConstant)]: from [startTime] on
    the parameter approaches [target] exponentially with the given time
    constant.  The intrinsic [value] is what the parameter holds when no
    automation is scheduled. *)
Record TargetEvent := mkTargetEvent {
  target : Q;
  eventStart : Q;
  timeConstant : Q
}.

Record AudioParam := mkAudioParam {
  value : Q;
  automation : list TargetEvent
}.

(** When the source was started: [start(when, offset)] is recorded as the
    engine clock of the call and the offset into the buffer. *)
Record Playhead := mkPlayhead {
  startedAtClock : Q;
  startOffset : Q
}.

Inductive AudioNode :=
| BufferSource (buf : option AudioBuffer) (started : option Playhead) (stopped : bool)
| Gain (gain : AudioParam)
| Analyser (fftSize : nat) (smoothingTimeConstant : Q)
| BiquadFilter (type : BiquadFilterType) (frequency : Q)
| Destination.

Record AudioContext := mkAudioContext {
  state : ContextState;
  currentTime : Q;
  nodes : gmap NodeRef AudioNode;
  connections : list (NodeRef * NodeRef);
  nextRef : NodeRef
}.

(** The destination node of a context is its node 0. *)
Definition destination : NodeRef := 0%nat.

Definition newAudioContext (st : ContextState) : AudioContext :=
  {| state := st; currentTime := 0;
     nodes := {[ destination := Destination ]};
     connections := [];
     nextRef := 1%nat |}.

(** [context.resume()].  In the browser the state changes when the
    returned promise settles; here it changes with the call. *)
Definition resume (c : AudioContext) : AudioContext :=
  {| state := Running; currentTime := currentTime c; nodes := nodes c;
     connections := connections c; nextRef := nextRef c |}.

(** The engine clock runs while the context is running. *)
Definition advance (d : Q) (c : AudioContext) : AudioContext :=
  match state c with
  | Running =>
      {| state := state c; currentTime := currentTime c + d; nodes := nodes c;
         connections := connections c; nextRef := nextRef c |}
  | _ => c
  end.

Definition withNodes (m : gmap NodeRef AudioNode) (c : AudioContext) : AudioContext :=
  {| state := state c; currentTime := currentTime c; nodes := m;
     connections := connections c; nextRef := nextRef c |}.

(** Node creation returns a fresh reference. *)
Definition create (n : AudioNode) (c : AudioContext) : NodeRef * AudioContext :=
  (nextRef c,
   {| state := state c; currentTime := currentTime c;
      nodes := <[ nextRef c := n ]> (nodes c);
      connections := connections c; nextRef := S (nextRef c) |}).

(** Defaults of the Web Audio API: gain 1, fftSize 2048, smoothing 0.8,
    a lowpass at 350 Hz. *)
Definition defaultGain : AudioParam := {| value := 1; automation := [] |}.

Definition createBufferSource := create (BufferSource None None false).
Definition createGain := create (Gain defaultGain).
Definition createAnalyser := create (Analyser 2048 (8 # 10)).
Definition createBiquadFilter := create (BiquadFilter lowpass 350).

Definition update (r : NodeRef) (f : AudioNode -> AudioNode) (c : AudioContext)
  : AudioContext :=
  withNodes (alter f r (nodes c)) c.

Definition setBuffer (r : NodeRef) (b : AudioBuffer) :=
  update r (fun n => match n with
                     | BufferSource _ s e => BufferSource (Some b) s e
                     | _ => n end).

Definition setFftSize (r : NodeRef) (k : nat) :=
  update r (fun n => match n with Analyser _ s => Analyser k s | _ => n end).

Definition setSmoothingTimeConstant (r : NodeRef) (s : Q) :=
  update r (fun n => match n with Analyser k _ => Analyser k s | _ => n end).

Definition setType (r : NodeRef) (t : BiquadFilterType) :=
  update r (fun n => match n with BiquadFilter _ f => BiquadFilter t f | _ => n end).

Definition setFrequency (r : NodeRef) (f : Q) :=
  update r (fun n => match n with BiquadFilter t _ => BiquadFilter t f | _ => n end).

Definition connect (src dst : NodeRef) (c : AudioContext) : AudioContext :=
  {| state := state c; currentTime := currentTime c; nodes := nodes c;
     connections := connections c ++ [(src, dst)]; nextRef := nextRef c |}.

(** [node.disconnect()] removes every outgoing connection of the node. *)
Definition disconnect (src : NodeRef) (c : AudioContext) : AudioContext :=
  {| state := state c; currentTime := currentTime c; nodes := nodes c;
     connections := filter (fun e => e.1 ≠ src) (connections c);
     nextRef := nextRef c |}.

(** [source.start(0, offset)].  The Web Audio API throws a RangeError for
    a negative offset; an offset beyond the end of the buffer is accepted
    (nothing is left to play). *)
Definition start (r : NodeRef) (offset : Q) (c : AudioContext) : option AudioContext :=
  if Qle_bool 0 offset then
    Some (update r (fun n => match n with
                             | BufferSource b _ e =>
                                 BufferSource b (Some (mkPlayhead (currentTime c) offset)) e
                             | _ => n end) c)
  else None.

Definition stop (r : NodeRef) :=
  update r (fun n => match n with
                     | BufferSource b s _ => BufferSource b s true
                     | _ => n end).

Definition setTargetAtTime (v t tc : Q) (p : AudioParam) : AudioParam :=
  {| value := value p; automation := automation p ++ [mkTargetEvent v t tc] |}.

Definition gainSetTargetAtTime (r : NodeRef) (v t tc : Q) :=
  update r (fun n => match n with
                     | Gain p => Gain (setTargetAtTime v t tc p)
                     | _ => n end).

(** The value an automated parameter settles at: the target of the last
    scheduled event, or the intrinsic value when nothing is scheduled. *)
Definition settled (p : AudioParam) : Q :=
  match last (automation p) with
  | Some ev => target ev
  | None => value p
  end.

(** [analyser.frequencyBinCount] is half the FFT size. *)
Definition frequencyBinCount (n : AudioNode) : nat :=
  match n with Analyser k _ => Nat.div2 k | _ => 0%nat end.


End WebAudio.

(** ** The engine: class [AudioEngine] of src/services/audioEngine.ts *)

Module Engine.
Import WebAudio.

Inductive Exn :=
| Error (message : string)
| RangeError.

Inductive Stem := low | mid | high.

Record AudioEngine := mkAudioEngine {
  context : option AudioContext;
  buffer : option AudioBuffer;
  (* Nodes *)
  sourceNode : option NodeRef;
  masterGain : option NodeRef;
  analyser : option NodeRef;
  (* Stem / Crossover Nodes *)
  lowFilter : option NodeRef;
  midLowFilter : option NodeRef;
  midHighFilter : option NodeRef;
  highFilter : option NodeRef;
  lowGain : option NodeRef;
  midGain : option NodeRef;
  highGain : option NodeRef;
  (* Playback state *)
  startTime : Q;
  pausedAt : Q;
  isPlaying : bool
}.

(** Field assignments [this.f = v]. *)
Definition set_context (c : option AudioContext) (e : AudioEngine) : AudioEngine :=
  {| context := c; buffer := buffer e; sourceNode := sourceNode e;
     masterGain := masterGain e; analyser := analyser e;
     lowFilter := lowFilter e; midLowFilter := midLowFilter e;
     midHighFilter := midHighFilter e; highFilter := highFilter e;
     lowGain := lowGain e; midGain := midGain e; highGain := highGain e;
     startTime := startTime e; pausedAt := pausedAt e; isPlaying := isPlaying e |}.

Definition set_buffer (b : option AudioBuffer) (e : AudioEngine) : AudioEngine :=
  {| context := context e; buffer := b; sourceNode := sourceNode e;
     masterGain := masterGain e; analyser := analyser e;
     lowFilter := lowFilter e; midLowFilter := midLowFilter e;
     midHighFilter := midHighFilter e; highFilter := highFilter e;
     lowGain := lowGain e; midGain := midGain e; highGain := highGain e;
     startTime := startTime e; pausedAt := pausedAt e; isPlaying := isPlaying e |}.

Definition set_sourceNode (s : option NodeRef) (e : AudioEngine) : AudioEngine :=
  {| context := context e; buffer := buffer e; sourceNode := s;
     masterGain := masterGain e; analyser := analyser e;
     lowFilter := lowFilter e; midLowFilter := midLowFilter e;
     midHighFilter := midHighFilter e; highFilter := highFilter e;
     lowGain := lowGain e; midGain := midGain e; highGain := highGain e;
     startTime := startTime e; pausedAt := pausedAt e; isPlaying := isPlaying e |}.

Definition set_startTime (t : Q) (e : AudioEngine) : AudioEngine :=
  {| context := context e; buffer := buffer e; sourceNode := sourceNode e;
     masterGain := masterGain e; analyser := analyser e;
     lowFilter := lowFilter e; midLowFilter := midLowFilter e;
     midHighFilter := midHighFilter e; highFilter := highFilter e;
     lowGain := lowGain e; midGain := midGain e; highGain := highGain e;
     startTime := t; pausedAt := pausedAt e; isPlaying := isPlaying e |}.

Definition set_pausedAt (t : Q) (e : AudioEngine) : AudioEngine :=
  {| context := context e; buffer := buffer e; sourceNode := sourceNode e;
     masterGain := masterGain e; analyser := analyser e;
     lowFilter := lowFilter e; midLowFilter := midLowFilter e;
     midHighFilter := midHighFilter e; highFilter := highFilter e;
     lowGain := lowGain e; midGain := midGain e; highGain := highGain e;
     startTime := startTime e; pausedAt := t; isPlaying := isPlaying e |}.

Definition set_isPlaying (p : bool) (e : AudioEngine) : AudioEngine :=
  {| context := context e; buffer := buffer e; sourceNode := sourceNode e;
     masterGain := masterGain e; analyser := analyser e;
     lowFilter := lowFilter e; midLowFilter := midLowFilter e;
     midHighFilter := midHighFilter e; highFilter := highFilter e;
     lowGain := lowGain e; midGain := midGain e; highGain := highGain e;
     startTime := startTime e; pausedAt := pausedAt e; isPlaying := p |}.

(** The ten node references a call of [play] assigns, in the order of the
    assignments in the source. *)
Record GraphRefs := mkGraphRefs {
  g_source : NodeRef; g_master : NodeRef; g_analyser : NodeRef;
  g_lowFilter : NodeRef; g_lowGain : NodeRef;
  g_midLowFilter : NodeRef; g_midHighFilter : NodeRef; g_midGain : NodeRef;
  g_highFilter : NodeRef; g_highGain : NodeRef
}.

Definition set_graph (g : GraphRefs) (e : AudioEngine) : AudioEngine :=
  {| context := context e; buffer := buffer e;
     sourceNode := Some (g_source g);
     masterGain := Some (g_master g); analyser := Some (g_analyser g);
     lowFilter := Some (g_lowFilter g); midLowFilter := Some (g_midLowFilter g);
     midHighFilter := Some (g_midHighFilter g); highFilter := Some (g_highFilter g);
     lowGain := Some (g_lowGain g); midGain := Some (g_midGain g);
     highGain := Some (g_highGain g);
     startTime := startTime e; pausedAt := pausedAt e; isPlaying := isPlaying e |}.

(** [constructor()]: [platform] is [None] when the browser has neither
    [AudioContext] nor [webkitAudioContext], and otherwise the state the
    new context starts in (the autoplay policy may start it suspended). *)
Definition new (platform : option ContextState) : AudioEngine :=
  {| context := newAudioContext <$> platform; buffer := None;
     sourceNode := None; masterGain := None; analyser := None;
     lowFilter := None; midLowFilter := None; midHighFilter := None;
     highFilter := None; lowGain := None; midGain := None; highGain := None;
     startTime := 0; pausedAt := 0; isPlaying := false |}.

Definition getContext (e : AudioEngine) : option AudioContext := context e.

Definition resumeIfSuspended (c : AudioContext) : AudioContext :=
  match state c with Suspended => resume c | _ => c end.

(** The block of [play] between [if (!this.isPlaying) {] and the call of
    [start]: creation of the nodes, the crossover set-up and the routing. *)
Definition buildGraph (b : AudioBuffer) (c : AudioContext) : GraphRefs * AudioContext :=
  let '(src, c) := createBufferSource c in
  let c := setBuffer src b c in
  (* Create Master Chain *)
  let '(master, c) := createGain c in
  let '(an, c) := createAnalyser c in
  let c := setFftSize an 2048 c in
  let c := setSmoothingTimeConstant an (85 # 100) c in
  (* 1. Low Band (< 250Hz) *)
  let '(lowF, c) := createBiquadFilter c in
  let c := setType lowF lowpass c in
  let c := setFrequency lowF 250 c in
  let '(lowG, c) := createGain c in
  (* 2. Mid Band (250Hz - 4kHz) *)
  let '(midLowF, c) := createBiquadFilter c in
  let c := setType midLowF highpass c in
  let c := setFrequency midLowF 250 c in
  let '(midHighF, c) := createBiquadFilter c in
  let c := setType midHighF lowpass c in
  let c := setFrequency midHighF 4000 c in
  let '(midG, c) := createGain c in
  (* 3. High Band (> 4kHz) *)
  let '(highF, c) := createBiquadFilter c in
  let c := setType highF highpass c in
  let c := setFrequency highF 4000 c in
  let '(highG, c) := createGain c in
  (* Split Source to Filters *)
  let c := connect src lowF c in
  let c := connect src midLowF c in
  let c := connect src highF c in
  (* Low Chain *)
  let c := connect lowF lowG c in
  let c := connect lowG master c in
  (* Mid Chain *)
  let c := connect midLowF midHighF c in
  let c := connect midHighF midG c in
  let c := connect midG master c in
  (* High Chain *)
  let c := connect highF highG c in
  let c := connect highG master c in
  (* Master Output *)
  let c := connect master an c in
  let c := connect an destination c in
  (mkGraphRefs src master an lowF lowG midLowF midHighF midG highF highG, c).

Definition play (e : AudioEngine) : AudioEngine * option Exn :=
  match context e, buffer e with
  | Some c, Some b =>
      let c := resumeIfSuspended c in
      if isPlaying e then (set_context (Some c) e, None)
      else
        let '(g, c) := buildGraph b c in
        let e := set_graph g e in
        let offset := pausedAt e in
        match start (g_source g) offset c with
        | None => (set_context (Some c) e, Some RangeError)
        | Some c =>
            let e := set_context (Some c) e in
            let e := set_startTime (currentTime c - offset) e in
            (set_isPlaying true e, None)
        end
  | _, _ => (e, None)
  end.

Definition pause (e : AudioEngine) : AudioEngine :=
  match context e, sourceNode e with
  | Some c, Some src =>
      if isPlaying e then
        let elapsed := currentTime c - startTime e in
        let e := set_pausedAt elapsed e in
        let c := WebAudio.stop src c in
        let c := disconnect src c in
        let e := set_context (Some c) e in
        let e := set_sourceNode None e in
        set_isPlaying false e
      else e
  | _, _ => e
  end.

Definition stop (e : AudioEngine) : AudioEngine :=
  set_pausedAt 0 (pause e).

Definition seek (time : Q) (e : AudioEngine) : AudioEngine * option Exn :=
  match context e, buffer e with
  | Some _, Some _ =>
      let wasPlaying := isPlaying e in
      let e := if wasPlaying then pause e else e in
      let e := set_pausedAt time e in
      if wasPlaying then play e else (e, None)
  | _, _ => (e, None)
  end.

(** Stem Controls *)
Definition rampTime : Q := 1 # 10.

Definition setStemVolume (stem : Stem) (v : Q) (e : AudioEngine) : AudioEngine :=
  match context e with
  | None => e
  | Some c =>
      let time := currentTime c in
      match stem, lowGain e, midGain e, highGain e with
      | low, Some g, _, _ =>
          set_context (Some (gainSetTargetAtTime g v time rampTime c)) e
      | mid, _, Some g, _ =>
          set_context (Some (gainSetTargetAtTime g v time rampTime c)) e
      | high, _, _, Some g =>
          set_context (Some (gainSetTargetAtTime g v time rampTime c)) e
      | _, _, _, _ => e
      end
  end.

Definition getAnalyser (e : AudioEngine) : option NodeRef := analyser e.

Definition getCurrentTime (e : AudioEngine) : Q :=
  match context e with
  | Some c => if isPlaying e then currentTime c - startTime e else pausedAt e
  | None => pausedAt e
  end.

Definition getDuration (e : AudioEngine) : Q :=
  match buffer e with
  | Some b => duration b
  | None => 0
  end.

(** [loadFile]: the awaits are taken as one step (no other call of the
    engine runs between them); [decodeAudioData] stands for
    [file.arrayBuffer()] followed by [context.decodeAudioData], and is
    [None] when either rejects. *)
Section Decoder.
Context {File : Type}.
Variable decodeAudioData : File -> option AudioBuffer.

Definition loadFile (file : File) (e : AudioEngine)
  : AudioEngine * (Exn + AudioBuffer) :=
  match context e with
  | None => (e, inl (Error "AudioContext not supported"))
  | Some _ =>
      let e := stop e in
      let e := set_buffer None e in
      let e := set_context (resumeIfSuspended <$> context e) e in
      match decodeAudioData file with
      | Some audioBuffer =>
          let e := set_buffer (Some audioBuffer) e in
          let e := set_pausedAt 0 e in
          let e := set_startTime 0 e in
          (e, inr audioBuffer)
      | None => (e, inl (Error "Failed to decode audio data."))
      end
  end.

(** [loadFile] in two halves, for a caller that lets other calls of the
    engine run while the decoder works.  [loadFile_start] is the call as
    far as the awaits of the [try] block; it gives the promise that is
    then pending: rejected already when there is no context, and waiting
    for the decoder otherwise.  [loadFile_settle] is the rest of the call,
    run on the engine as it is when the decoder answers.  As in [play],
    the context counts as resumed from the call of [resume] on. *)
Inductive LoadPromise :=
| Rejected (reason : Exn)
| Decoding (file : File).

Definition loadFile_start (file : File) (e : AudioEngine)
  : AudioEngine * LoadPromise :=
  match context e with
  | None => (e, Rejected (Error "AudioContext not supported"))
  | Some _ =>
      let e := stop e in
      let e := set_buffer None e in
      let e := set_context (resumeIfSuspended <$> context e) e in
      (e, Decoding file)
  end.

Definition loadFile_settle (promise : LoadPromise) (e : AudioEngine)
  : AudioEngine * (Exn + AudioBuffer) :=
  match promise with
  | Rejected reason => (e, inl reason)
  | Decoding file =>
      match decodeAudioData file with
      | Some audioBuffer =>
          let e := set_buffer (Some audioBuffer) e in
          let e := set_pausedAt 0 e in
          let e := set_startTime 0 e in
          (e, inr audioBuffer)
      | None => (e, inl (Error "Failed to decode audio data."))
      end
  end.
End Decoder.

Arguments LoadPromise : clear implicits.

(** The environment: [d] seconds pass on the engine clock. *)
Definition tick (d : Q) (e : AudioEngine) : AudioEngine :=
  set_context (advance d <$> context e) e.

End Engine.

(** ** The transport as a state machine: calls of the UI and clock ticks *)

Module Transport.
Import WebAudio Engine.

Inductive Event :=
| Play
| Pause
| Stop
| Seek (t : Q)
| Tick (d : Q).

(** A call that throws leaves the engine as it was at the throw. *)
Definition step (e : AudioEngine) (ev : Event) : AudioEngine :=
  match ev with
  | Play => (play e).1
  | Pause => pause e
  | Stop => stop e
  | Seek t => (seek t e).1
  | Tick d => tick d e
  end.

Fixpoint run (e : AudioEngine) (evs : list Event) : AudioEngine :=
  match evs with
  | [] => e
  | ev :: evs => run (step e ev) evs
  end.

(** Seek targets inside the buffer, and a clock that does not run
    backwards. *)
Definition inRange (dur : Q) (ev : Event) : Prop :=
  match ev with
  | Seek t => 0 <= t /\ t <= dur
  | Tick d => 0 <= d
  | _ => True
  end.

(** No tick carries a playing engine beyond the end of the buffer. *)
Fixpoint withinBuffer (dur : Q) (e : AudioEngine) (evs : list Event) : Prop :=
  match evs with
  | [] => True
  | ev :: evs =>
      match ev with
      | Tick d => isPlaying e = true -> getCurrentTime (tick d e) <= dur
      | _ => True
      end /\ withinBuffer dur (step e ev) evs
  end.

(** A playing engine holds its source node. *)
Definition wellFormed (e : AudioEngine) : Prop :=
  isPlaying e = true -> is_Some (sourceNode e).

(** What holds of every state reached after the buffer [b] was loaded:
    context and buffer are there, the stored position is not negative, and
    a playing engine has a source that was started no later than now. *)
Definition Inv (b : AudioBuffer) (e : AudioEngine) : Prop :=
  exists c, context e = Some c
            /\ buffer e = Some b
            /\ 0 <= pausedAt e
            /\ (isPlaying e = true ->
                is_Some (sourceNode e) /\ startTime e <= currentTime c).

(** Events that are neither a seek nor a stop. *)
Definition forward (ev : Event) : Prop :=
  match ev with
  | Play | Pause => True
  | Tick d => 0 <= d
  | Seek _ | Stop => False
  end.

(** The states of an engine that has not yet decoded any file: those
    reached from a new engine by transport calls, gain changes, clock
    ticks and loads that fail. *)
Inductive Unloaded : AudioEngine -> Prop :=
| Unloaded_new platform : Unloaded (new platform)
| Unloaded_play e : Unloaded e -> Unloaded (play e).1
| Unloaded_pause e : Unloaded e -> Unloaded (pause e)
| Unloaded_stop e : Unloaded e -> Unloaded (stop e)
| Unloaded_seek t e : Unloaded e -> Unloaded (seek t e).1
| Unloaded_tick d e : Unloaded e -> Unloaded (tick d e)
| Unloaded_setStemVolume s v e : Unloaded e -> Unloaded (setStemVolume s v e)
| Unloaded_loadFile (File : Type) (decode : File -> option AudioBuffer) file e :
    Unloaded e -> decode file = None -> Unloaded (loadFile decode file e).1.

(** The states of an engine before the first [play] that gets past its
    guard: those reached from a new engine by loads, whether they decode
    or not, by [pause], [stop], [seek], gain changes and clock ticks, and
    by calls of [play] that return at once for want of a context or of a
    buffer. *)
Inductive NeverPlayed : AudioEngine -> Prop :=
| NeverPlayed_new platform : NeverPlayed (new platform)
| NeverPlayed_play e :
    NeverPlayed e -> context e = None \/ buffer e = None ->
    NeverPlayed (play e).1
| NeverPlayed_pause e : NeverPlayed e -> NeverPlayed (pause e)
| NeverPlayed_stop e : NeverPlayed e -> NeverPlayed (stop e)
| NeverPlayed_seek t e : NeverPlayed e -> NeverPlayed (seek t e).1
| NeverPlayed_tick d e : NeverPlayed e -> NeverPlayed (tick d e)
| NeverPlayed_setStemVolume s v e :
    NeverPlayed e -> NeverPlayed (setStemVolume s v e)
| NeverPlayed_loadFile (File : Type) (decode : File -> option AudioBuffer) file e :
    NeverPlayed e -> NeverPlayed (loadFile decode file e).1.

(** The states an engine can be in: those reached from a new engine by
    calls of its methods, with any file and decoder, and by clock ticks. *)
Inductive Reachable : AudioEngine -> Prop :=
| Reachable_new platform : Reachable (new platform)
| Reachable_play e : Reachable e -> Reachable (play e).1
| Reachable_pause e : Reachable e -> Reachable (pause e)
| Reachable_stop e : Reachable e -> Reachable (stop e)
| Reachable_seek t e : Reachable e -> Reachable (seek t e).1
| Reachable_tick d e : Reachable e -> Reachable (tick d e)
| Reachable_setStemVolume s v e : Reachable e -> Reachable (setStemVolume s v e)
| Reachable_loadFile (File : Type) (decode : File -> option AudioBuffer) file e :
    Reachable e -> Reachable (loadFile decode file e).1.

(** The context of the engine is running. *)
Definition running (e : AudioEngine) : Prop :=
  state <$> context e = Some Running.

(** Where the source that is playing stands in the buffer: the offset it
    was started at plus the time on the engine clock since then. *)
Definition playhead (e : AudioEngine) : option Q :=
  c ← context e;
  src ← sourceNode e;
  n ← nodes c !! src;
  match n with
  | BufferSource _ (Some ph) false =>
      Some (startOffset ph + (currentTime c - startedAtClock ph))
  | _ => None
  end.

(** The buffer the source node of the engine holds. *)
Definition sourceBuffer (e : AudioEngine) : option AudioBuffer :=
  c ← context e;
  src ← sourceNode e;
  n ← nodes c !! src;
  match n with
  | BufferSource b _ _ => b
  | _ => None
  end.

(** The node fields of the engine, and what the context holds: the
    nodes, their connections and the allocation counter. *)
Definition graphRefs (e : AudioEngine) : list (option NodeRef) :=
  [sourceNode e; masterGain e; analyser e;
   lowFilter e; midLowFilter e; midHighFilter e; highFilter e;
   lowGain e; midGain e; highGain e].

Definition store (e : AudioEngine)
  : option (gmap NodeRef AudioNode * list (NodeRef * NodeRef) * NodeRef) :=
  (fun c => (nodes c, connections c, nextRef c)) <$> context e.

Definition clock (e : AudioEngine) : option Q := currentTime <$> context e.

(** The node a field of the engine refers to. *)
Definition nodeAt (e : AudioEngine) (r : option NodeRef) : option AudioNode :=
  c ← context e; i ← r; nodes c !! i.


(** The gain parameter of the band's gain node. *)
Definition stemGainNode (s : Stem) (e : AudioEngine) : option NodeRef :=
  match s with low => lowGain e | mid => midGain e | high => highGain e end.

Definition stemGain (s : Stem) (e : AudioEngine) : option AudioParam :=
  match nodeAt e (stemGainNode s e) with
  | Some (Gain p) => Some p
  | _ => None
  end.

(** No two bands share a gain node. *)
Definition bandsApart (e : AudioEngine) : Prop :=
  forall s s' g, s <> s' -> stemGainNode s e = Some g -> stemGainNode s' e <> Some g.

(** What is playing is the loaded buffer, from a source that was started
    and not stopped, and [startTime] is the clock of that start minus the
    offset it started at. *)
Definition playingSource (e : AudioEngine) : Prop :=
  isPlaying e = true ->
  exists c src ph,
    context e = Some c /\ sourceNode e = Some src /\ is_Some (buffer e)
    /\ nodes c !! src = Some (BufferSource (buffer e) (Some ph) false)
    /\ startTime e == startedAtClock ph - startOffset ph.

Definition gainRefs (e : AudioEngine) : list (option NodeRef) :=
  [lowGain e; midGain e; highGain e].


End Transport.

(** ** The visualizer: one pass of [render] in src/components/Visualizer.tsx *)

Module Visualizer.
Import WebAudio Engine.

Inductive Frame :=
| Skipped                      (* nothing drawn, next frame requested *)
| Drawn (barHeights : list Q).

Definition height : Q := 200.

Section Render.
(** What [analyser.getByteFrequencyData] writes into an array of the
    given length: the signal is not part of the model. *)
Variable getByteFrequencyData : AudioContext -> NodeRef -> nat -> list nat.

(** [analyser] is the value [audioEngine.getAnalyser()] had when the
    component was mounted. *)
Definition render (e : AudioEngine) (analyser : option NodeRef) : Frame :=
  match analyser with
  | None => Skipped
  | Some a =>
      match context e with
      | Some c =>
          let bufferLength :=
            from_option frequencyBinCount 0%nat (nodes c !! a) in
          let dataArray := getByteFrequencyData c a bufferLength in
          Drawn (map (fun v => (inject_Z (Z.of_nat v) / 255) * height) dataArray)
      | None => Skipped
      end
  end.
End Render.

(** The frame the specification asks for when there is no graph. *)
Definition zeroFrame : Frame := Drawn (replicate 1024 0).

(** The bars of one pass, with their place on the canvas: the arguments
    of [ctx.roundRect(x, height - barHeight, barWidth, barHeight, 4)]. *)
Record Rect := mkRect { rx : Q; ry : Q; rw : Q; rh : Q }.

Definition width : Q := 800.

(** [new Uint8Array(bufferLength)] after [getByteFrequencyData] has written
    into it: the array keeps its length, is zero where nothing was
    written, and takes no more than it holds. *)
Definition uint8Array (bufferLength : nat) (written : list nat) : list nat :=
  map (fun i => nth i written 0%nat) (seq 0 bufferLength).

(** The loop [for (let i = 0; i < bufferLength; i++)] with its running [x]. *)
Fixpoint drawBars (barWidth x : Q) (dataArray : list nat) : list Rect :=
  match dataArray with
  | [] => []
  | v :: rest =>
      let barHeight := (inject_Z (Z.of_nat v) / 255) * height in
      mkRect x (height - barHeight) barWidth barHeight
      :: drawBars barWidth (x + (barWidth + 2)) rest
  end.

Section Bars.
Variable getByteFrequencyData : AudioContext -> NodeRef -> nat -> list nat.

Definition renderRects (e : AudioEngine) (analyser : option NodeRef)
  : option (list Rect) :=
  match analyser, context e with
  | Some a, Some c =>
      let bufferLength :=
        from_option frequencyBinCount 0%nat (nodes c !! a) in
      let dataArray :=
        uint8Array bufferLength (getByteFrequencyData c a bufferLength) in
      let barWidth := (width / inject_Z (Z.of_nat bufferLength)) * (25 # 10) in
      Some (drawBars barWidth 0 dataArray)
  | _, _ => None
  end.
End Bars.

End Visualizer.

(** ** The stem and transport handlers of src/App.tsx *)

Module App.
Import WebAudio Engine.

(** The objects [{ low, mid, high }] of the component state. *)
Record Stems (A : Type) := mkStems { s_low : A; s_mid : A; s_high : A }.
Arguments mkStems {A}.
Arguments s_low {A}.
Arguments s_mid {A}.
Arguments s_high {A}.

Definition get {A} (id : Stem) (o : Stems A) : A :=
  match id with low => s_low o | mid => s_mid o | high => s_high o end.

(** [{ ...o, [id]: v }] *)
Definition set {A} (id : Stem) (v : A) (o : Stems A) : Stems A :=
  match id with
  | low => mkStems v (s_mid o) (s_high o)
  | mid => mkStems (s_low o) v (s_high o)
  | high => mkStems (s_low o) (s_mid o) v
  end.

(** A pending [setTimeout] callback of [handlePlayPause]: the closure
    holds the volumes and mutes of the render in which it was created. *)
Record Timer := mkTimer {
  delayMs : nat;
  t_stemVolumes : Stems Q;
  t_stemMutes : Stems bool
}.

(** [a % b] of JavaScript on numbers: the quotient is truncated towards
    zero, so the remainder has the sign of the dividend. *)
Definition Qtruncate (x : Q) : Z :=
  if Qle_bool 0 x then Qfloor x else Qceiling x.

Definition jsRemainder (a b : Q) : Q := a - b * inject_Z (Qtruncate (a / b)).

(** How a template literal prints an integer. *)
Definition showZ (z : Z) : string := NilZero.string_of_int (Z.to_int z).

Definition formatTime (time : Q) : string :=
  let min := Qfloor (time / 60) in
  let sec := Qfloor (jsRemainder time 60) in
  String.append (showZ min)
    (String.append ":"
       (String.append (if (sec <? 10)%Z then "0" else "") (showZ sec))).

Section Component.
Context {File : Type}.
Variable decodeAudioData : File -> option AudioBuffer.

(** The component state that the handlers read and write, the
    singleton [audioEngine], and the pending timers.  A handler runs on
    the state of the latest render. *)
Record AppState := mkAppState {
  file : option File;
  isPlaying : bool;
  currentTime : Q;
  duration : Q;
  errorMsg : option string;
  stemVolumes : Stems Q;
  stemMutes : Stems bool;
  audioEngine : AudioEngine;
  timers : list Timer
}.

Definition initial (platform : option ContextState) : AppState :=
  {| file := None; isPlaying := false; currentTime := 0; duration := 0;
     errorMsg := None;
     stemVolumes := mkStems 1 1 1;
     stemMutes := mkStems false false false;
     audioEngine := Engine.new platform; timers := [] |}.

Definition with_engine (e : AudioEngine) (s : AppState) : AppState :=
  {| file := file s; isPlaying := isPlaying s; currentTime := currentTime s;
     duration := duration s; errorMsg := errorMsg s;
     stemVolumes := stemVolumes s; stemMutes := stemMutes s;
     audioEngine := e; timers := timers s |}.

(** [handleFileUpload] from the change event to the end of its [finally],
    with no other handler in between: what a completed upload makes of the
    state it started from.  The two halves around the [await], between
    which the page is rendered and other handlers run, are
    [handleFileUpload_start] and [handleFileUpload_resume] below. *)
Definition handleFileUpload (uploadedFile : File) (s : AppState) : AppState :=
  match loadFile decodeAudioData uploadedFile (audioEngine s) with
  | (e, inr buffer) =>
      {| file := Some uploadedFile; isPlaying := false; currentTime := 0;
         duration := WebAudio.duration buffer; errorMsg := None;
         stemVolumes := stemVolumes s; stemMutes := stemMutes s;
         audioEngine := e; timers := timers s |}
  | (e, inl _) =>
      {| file := None; isPlaying := isPlaying s; currentTime := currentTime s;
         duration := duration s;
         errorMsg := Some "Failed to decode audio file. Please use WAV or high-quality MP3."%string;
         stemVolumes := stemVolumes s; stemMutes := stemMutes s;
         audioEngine := e; timers := timers s |}
  end.

(** The callback of [setTimeout(..., 50)]: re-apply volumes on play. *)
Definition reapplyVolumes (t : Timer) (e : AudioEngine) : AudioEngine :=
  foldl (fun e k =>
           setStemVolume k (if get k (t_stemMutes t) then 0
                            else get k (t_stemVolumes t)) e)
        e [low; mid; high].

Definition handlePlayPause (s : AppState) : AppState :=
  match file s with
  | None => s
  | Some _ =>
      if isPlaying s then
        {| file := file s; isPlaying := negb (isPlaying s);
           currentTime := currentTime s; duration := duration s;
           errorMsg := errorMsg s;
           stemVolumes := stemVolumes s; stemMutes := stemMutes s;
           audioEngine := pause (audioEngine s); timers := timers s |}
      else
        match play (audioEngine s) with
        | (e, Some _) => with_engine e s
        | (e, None) =>
            {| file := file s; isPlaying := negb (isPlaying s);
               currentTime := currentTime s; duration := duration s;
               errorMsg := errorMsg s;
               stemVolumes := stemVolumes s; stemMutes := stemMutes s;
               audioEngine := e;
               timers := timers s ++ [mkTimer 50 (stemVolumes s) (stemMutes s)] |}
        end
  end.

(** The oldest pending timer fires. *)
Definition fireTimer (s : AppState) : AppState :=
  match timers s with
  | [] => s
  | t :: ts =>
      {| file := file s; isPlaying := isPlaying s; currentTime := currentTime s;
         duration := duration s; errorMsg := errorMsg s;
         stemVolumes := stemVolumes s; stemMutes := stemMutes s;
         audioEngine := reapplyVolumes t (audioEngine s); timers := ts |}
  end.

Definition handleStop (s : AppState) : AppState :=
  {| file := file s; isPlaying := false; currentTime := 0;
     duration := duration s; errorMsg := errorMsg s;
     stemVolumes := stemVolumes s; stemMutes := stemMutes s;
     audioEngine := Engine.stop (audioEngine s); timers := timers s |}.

Definition handleSeek (time : Q) (s : AppState) : AppState :=
  {| file := file s; isPlaying := isPlaying s; currentTime := time;
     duration := duration s; errorMsg := errorMsg s;
     stemVolumes := stemVolumes s; stemMutes := stemMutes s;
     audioEngine := (seek time (audioEngine s)).1; timers := timers s |}.

Definition handleStemVolumeChange (id : Stem) (val : Q) (s : AppState) : AppState :=
  let newVols := set id val (stemVolumes s) in
  {| file := file s; isPlaying := isPlaying s; currentTime := currentTime s;
     duration := duration s; errorMsg := errorMsg s;
     stemVolumes := newVols; stemMutes := stemMutes s;
     audioEngine := if get id (stemMutes s) then audioEngine s
                    else setStemVolume id val (audioEngine s);
     timers := timers s |}.

Definition handleStemMute (id : Stem) (s : AppState) : AppState :=
  let newMutes := set id (negb (get id (stemMutes s))) (stemMutes s) in
  {| file := file s; isPlaying := isPlaying s; currentTime := currentTime s;
     duration := duration s; errorMsg := errorMsg s;
     stemVolumes := stemVolumes s; stemMutes := newMutes;
     audioEngine := setStemVolume id (if get id newMutes then 0
                                      else get id (stemVolumes s))
                                  (audioEngine s);
     timers := timers s |}.

(** The slider of one band is moved through the values [vals]. *)
Definition slide (id : Stem) (vals : list Q) (s : AppState) : AppState :=
  foldl (fun s v => handleStemVolumeChange id v s) s vals.

(** The passage of time seen from the component. *)
Definition elapse (d : Q) (s : AppState) : AppState :=
  with_engine (tick d (audioEngine s)) s.

(** The component while an upload may be under way: the state of the
    latest render, the [loadingAudio] flag, and the promise of [loadFile]
    that a call of [handleFileUpload] is awaiting. *)
Record Player := mkPlayer {
  shown : AppState;
  loadingAudio : bool;
  awaited : option (LoadPromise File)
}.

Definition mounted (platform : option ContextState) : Player :=
  {| shown := initial platform; loadingAudio := false; awaited := None |}.

(** A handler that does not await runs on the state of the latest
    render. *)
Definition handle (h : AppState -> AppState) (p : Player) : Player :=
  {| shown := h (shown p); loadingAudio := loadingAudio p;
     awaited := awaited p |}.

(** [handleFileUpload] up to [await audioEngine.loadFile(uploadedFile)]:
    the file is shown and [loadingAudio] set before the engine has
    decoded anything. *)
Definition handleFileUpload_start (uploadedFile : File) (p : Player) : Player :=
  let s := shown p in
  let '(e, promise) := loadFile_start uploadedFile (audioEngine s) in
  {| shown :=
       {| file := Some uploadedFile; isPlaying := isPlaying s;
          currentTime := currentTime s; duration := duration s;
          errorMsg := None;
          stemVolumes := stemVolumes s; stemMutes := stemMutes s;
          audioEngine := e; timers := timers s |};
     loadingAudio := true;
     awaited := Some promise |}.

(** [handleFileUpload] from the moment the awaited promise settles: the
    rest of the [try] block or the [catch] block, then [finally]. *)
Definition handleFileUpload_resume (p : Player) : Player :=
  match awaited p with
  | None => p
  | Some promise =>
      let s := shown p in
      match loadFile_settle decodeAudioData promise (audioEngine s) with
      | (e, inr buffer) =>
          {| shown :=
               {| file := file s; isPlaying := false; currentTime := 0;
                  duration := WebAudio.duration buffer; errorMsg := errorMsg s;
                  stemVolumes := stemVolumes s; stemMutes := stemMutes s;
                  audioEngine := e; timers := timers s |};
             loadingAudio := false;
             awaited := None |}
      | (e, inl _) =>
          {| shown :=
               {| file := None; isPlaying := isPlaying s;
                  currentTime := currentTime s; duration := duration s;
                  errorMsg := Some "Failed to decode audio file. Please use WAV or high-quality MP3."%string;
                  stemVolumes := stemVolumes s; stemMutes := stemMutes s;
                  audioEngine := e; timers := timers s |};
             loadingAudio := false;
             awaited := None |}
      end
  end.

(** What the user and the environment do to the component: the controls
    of the player and of the stem console, the promise of a load that
    settles, a pending timer that fires, and time that passes. *)
Inductive Action :=
| Upload (uploadedFile : File)
| UploadSettles
| PlayPause
| StopClick
| SeekTo (time : Q)
| VolumeChange (id : Stem) (val : Q)
| MuteToggle (id : Stem)
| TimerFires
| Elapse (d : Q).

(** The controls on the page of the latest render: the file input is
    there only while no file is shown ([!file ? ... : ...]), the transport
    and the stem console only while one is, and the Play/Pause button is
    disabled while the audio is loading. *)
Definition offered (p : Player) (a : Action) : bool :=
  match file (shown p) with
  | None =>
      match a with
      | Upload _ | UploadSettles | TimerFires | Elapse _ => true
      | PlayPause | StopClick | SeekTo _ | VolumeChange _ _ | MuteToggle _ => false
      end
  | Some _ =>
      match a with
      | Upload _ => false
      | PlayPause => negb (loadingAudio p)
      | UploadSettles | StopClick | SeekTo _ | VolumeChange _ _ | MuteToggle _
      | TimerFires | Elapse _ => true
      end
  end.

Definition act (p : Player) (a : Action) : Player :=
  if offered p a then
    match a with
    | Upload f => handleFileUpload_start f p
    | UploadSettles => handleFileUpload_resume p
    | PlayPause => handle handlePlayPause p
    | StopClick => handle handleStop p
    | SeekTo t => handle (handleSeek t) p
    | VolumeChange id v => handle (handleStemVolumeChange id v) p
    | MuteToggle id => handle (handleStemMute id) p
    | TimerFires => handle fireTimer p
    | Elapse d => handle (elapse d) p
    end
  else p.

Fixpoint perform (p : Player) (actions : list Action) : Player :=
  match actions with
  | [] => p
  | a :: actions => perform (act p a) actions
  end.

(** The seek slider has [min="0"], and time does not run backwards. *)
Definition possible (a : Action) : Prop :=
  match a with
  | SeekTo t => 0 <= t
  | Elapse d => 0 <= d
  | _ => True
  end.

(** While the promise of a load is pending: a file is shown, nothing
    plays, the engine holds no buffer, and the promise is rejected exactly
    when the engine has no context; a context that decodes is no longer
    suspended. *)
Definition loading (promise : LoadPromise File) (s : AppState) : Prop :=
  file s <> None
  /\ isPlaying s = false
  /\ Engine.isPlaying (audioEngine s) = false
  /\ buffer (audioEngine s) = None
  /\ 0 <= pausedAt (audioEngine s)
  /\ match promise with
     | Rejected _ => state <$> context (audioEngine s) = None
     | Decoding _ =>
         exists st, state <$> context (audioEngine s) = Some st /\ st <> Suspended
     end.

(** With no load pending: while a file is shown the engine holds its
    buffer at a position that is not negative, the Play/Pause button agrees
    with the engine and the duration on display is that of the buffer;
    while none is shown nothing plays and the engine holds no buffer. *)
Definition idle (s : AppState) : Prop :=
  match file s with
  | Some _ =>
      exists b, Transport.Inv b (audioEngine s)
                /\ isPlaying s = Engine.isPlaying (audioEngine s)
                /\ duration s = WebAudio.duration b
  | None =>
      isPlaying s = false
      /\ Engine.isPlaying (audioEngine s) = false
      /\ buffer (audioEngine s) = None
      /\ 0 <= pausedAt (audioEngine s)
  end.

(** The component and the engine are in step: the engine is in a reachable
    state, [loadingAudio] is set exactly while a promise is awaited, and
    the state of the latest render fits the phase of the upload. *)
Definition inStep (p : Player) : Prop :=
  Transport.Reachable (audioEngine (shown p))
  /\ match awaited p with
     | Some promise => loadingAudio p = true /\ loading promise (shown p)
     | None => loadingAudio p = false /\ idle (shown p)
     end.

(** The gain each band should have according to the component state. *)
Definition wanted (id : Stem) (s : AppState) : Q :=
  if get id (stemMutes s) then 0 else get id (stemVolumes s).

End Component.

Arguments AppState : clear implicits.
Arguments Player : clear implicits.
Arguments Action : clear implicits.

End App.

(** ** Example inputs *)

Module Examples.
Import WebAudio Engine Transport.

(** A stand-in decoder: the empty file is corrupt, any other file decodes
    to ten seconds of stereo audio. *)
Definition demoDecode (f : list nat) : option AudioBuffer :=
  match f with
  | [] => None
  | _ => Some (mkAudioBuffer 10 44100 2)
  end.

Definition demoFile : list nat := [82; 73; 70; 70]%nat.

Definition demoBuffer : AudioBuffer := mkAudioBuffer 10 44100 2.

Definition fresh : AudioEngine := new (Some Running).

Definition loaded : AudioEngine := (loadFile demoDecode demoFile fresh).1.

Definition playing : AudioEngine := run loaded [Play; Tick 2].

Definition paused : AudioEngine := run loaded [Play; Tick 2; Pause].

(** The low band is turned down to one half while the engine is paused. *)
Definition quietLow : AudioEngine := setStemVolume low (1 # 2) paused.

(** The same at the level of the component: upload, play (the timer of
    the play handler fires after 50 ms), two seconds later pause, move the
    low slider to one half, play again. *)
Definition appLoaded : App.AppState (list nat) :=
  App.handleFileUpload demoDecode demoFile (App.initial (Some Running)).

Definition appPlaying : App.AppState (list nat) :=
  App.fireTimer (App.elapse (5 # 100) (App.handlePlayPause appLoaded)).

Definition appPaused : App.AppState (list nat) :=
  App.handlePlayPause (App.elapse 2 appPlaying).

Definition appReplay : App.AppState (list nat) :=
  App.handlePlayPause (App.handleStemVolumeChange low (1 # 2) appPaused).

(** An analyser that measures silence. *)
Definition silence (_ : AudioContext) (_ : NodeRef) (n : nat) : list nat :=
  replicate n 0%nat.

(** Scenario 6 of the specification: seek to 5 s, play, wait 2 s, pause. *)
Definition scenario : list Event := [Seek 5; Play; Tick 2; Pause].

End Examples.

(** ** Proof tactics *)

(** Unfolds the construction of the graph down to the operations of the
    node store, which stay folded. *)
Ltac unfold_graph :=
  cbv beta iota zeta delta
    [Engine.buildGraph WebAudio.createBufferSource WebAudio.createGain
     WebAudio.createAnalyser WebAudio.createBiquadFilter WebAudio.create
     WebAudio.setBuffer WebAudio.setFftSize WebAudio.setSmoothingTimeConstant
     WebAudio.setType WebAudio.setFrequency WebAudio.update WebAudio.withNodes
     WebAudio.connect WebAudio.nodes WebAudio.connections WebAudio.nextRef
     WebAudio.currentTime WebAudio.state WebAudio.destination fst snd].

(** Reads a node out of a store built by insertions and alterations at
    references that differ by a constant. *)
Ltac lookup_store :=
  repeat (rewrite lookup_alter_eq
          || rewrite lookup_insert_eq
          || (rewrite lookup_alter_ne by lia)
          || (rewrite lookup_insert_ne by lia)).

(** * Properties *)

Section Platform.
Import WebAudio Engine.

Lemma resumeIfSuspended_frame c :
  currentTime (resumeIfSuspended c) = currentTime c
  /\ nodes (resumeIfSuspended c) = nodes c
  /\ connections (resumeIfSuspended c) = connections c
  /\ nextRef (resumeIfSuspended c) = nextRef c.
Proof. unfold resumeIfSuspended. destruct (state c); auto. Qed.

Lemma buildGraph_currentTime b c : currentTime (buildGraph b c).2 = currentTime c.
Proof. reflexivity. Qed.

Lemma buildGraph_state b c : state (buildGraph b c).2 = state c.
Proof. reflexivity. Qed.

Lemma start_Some r off c c' :
  start r off c = Some c' ->
  0 <= off /\ currentTime c' = currentTime c /\ state c' = state c
  /\ connections c' = connections c /\ nextRef c' = nextRef c.
Proof.
  unfold start. destruct (Qle_bool 0 off) eqn:Hoff; [|discriminate].
  intros [= <-]. apply Qle_bool_iff in Hoff. auto.
Qed.

Lemma start_nonneg r off c : 0 <= off -> is_Some (start r off c).
Proof.
  intros H. unfold start. apply Qle_bool_iff in H. rewrite H. eauto.
Qed.

Lemma start_None r off c : start r off c = None -> off < 0.
Proof.
  unfold start. destruct (Qle_bool 0 off) eqn:Hoff; [discriminate|].
  intros _. apply Qnot_le_lt. intros H. apply Qle_bool_iff in H. congruence.
Qed.
End Platform.

Section TransportSteps.
Import WebAudio Engine Transport.

Local Arguments buildGraph : simpl never.
Local Arguments resumeIfSuspended : simpl never.

(** A successful [play] from a non-playing engine. *)
Lemma play_starts e c b :
  context e = Some c -> buffer e = Some b ->
  isPlaying e = false -> 0 <= pausedAt e ->
  exists e',
    play e = (e', None)
    /\ isPlaying e' = true
    /\ startTime e' = currentTime c - pausedAt e
    /\ pausedAt e' = pausedAt e
    /\ buffer e' = Some b
    /\ clock e' = Some (currentTime c)
    /\ is_Some (sourceNode e')
    /\ getCurrentTime e' == pausedAt e.
Proof.
  intros Hc Hb Hp Hoff. unfold play. rewrite Hc, Hb, Hp.
  destruct (buildGraph b (resumeIfSuspended c)) as [g c1] eqn:Hg.
  assert (Ht1 : currentTime c1 = currentTime c).
  { change c1 with (g, c1).2. rewrite <- Hg, buildGraph_currentTime.
    apply resumeIfSuspended_frame. }
  simpl. destruct (start (g_source g) (pausedAt e) c1) as [c2|] eqn:Hs.
  - apply start_Some in Hs as (_ & Ht2 & _).
    eexists. split; [reflexivity|]. unfold clock, getCurrentTime. simpl.
    rewrite Ht2, Ht1, Hb. repeat split; eauto. ring.
  - apply start_None in Hs. lra.
Qed.

(** [play] with a negative stored position: the graph is built, [start]
    throws, and the engine is not playing. *)
Lemma play_negative e c b :
  context e = Some c -> buffer e = Some b ->
  isPlaying e = false -> pausedAt e < 0 ->
  exists e',
    play e = (e', Some RangeError)
    /\ isPlaying e' = false /\ pausedAt e' = pausedAt e
    /\ startTime e' = startTime e /\ buffer e' = Some b.
Proof.
  intros Hc Hb Hp Hoff. unfold play. rewrite Hc, Hb, Hp.
  destruct (buildGraph b (resumeIfSuspended c)) as [g c1] eqn:Hg.
  simpl. destruct (start (g_source g) (pausedAt e) c1) as [c2|] eqn:Hs.
  - apply start_Some in Hs as (Hs & _). lra.
  - eexists. split; [reflexivity|]. simpl. auto.
Qed.

(** [play] on a playing engine, or on one without context or buffer,
    touches at most the state of the context. *)
Lemma play_noop e :
  isPlaying e = true \/ context e = None \/ buffer e = None ->
  exists e',
    play e = (e', None)
    /\ graphRefs e' = graphRefs e /\ store e' = store e /\ clock e' = clock e
    /\ buffer e' = buffer e /\ startTime e' = startTime e
    /\ pausedAt e' = pausedAt e /\ isPlaying e' = isPlaying e.
Proof.
  intros H. unfold play.
  destruct (context e) as [c|] eqn:Hc; [destruct (buffer e) as [b|] eqn:Hb|].
  - destruct (isPlaying e) eqn:Hp.
    + eexists. split; [reflexivity|]. unfold graphRefs, store, clock. simpl.
      rewrite Hc, Hb. simpl.
      destruct (resumeIfSuspended_frame c) as (-> & -> & -> & ->). auto 10.
    + destruct H as [H|[H|H]]; discriminate.
  - eexists. split; [reflexivity|]. auto 10.
  - eexists. split; [reflexivity|]. auto 10.
Qed.

Lemma pause_idle e : isPlaying e = false -> pause e = e.
Proof.
  intros Hp. unfold pause. rewrite Hp.
  destruct (context e), (sourceNode e); reflexivity.
Qed.

Lemma pause_playing e c src :
  context e = Some c -> sourceNode e = Some src -> isPlaying e = true ->
  isPlaying (pause e) = false
  /\ pausedAt (pause e) = currentTime c - startTime e
  /\ startTime (pause e) = startTime e
  /\ buffer (pause e) = buffer e
  /\ sourceNode (pause e) = None
  /\ context (pause e) = Some (disconnect src (WebAudio.stop src c)).
Proof.
  intros Hc Hs Hp. unfold pause. rewrite Hc, Hs, Hp. simpl. auto 10.
Qed.

(** [pause] never moves the reported position, and keeps the buffer. *)
Lemma pause_position e : getCurrentTime (pause e) = getCurrentTime e.
Proof.
  unfold pause, getCurrentTime.
  destruct (context e) as [c|] eqn:Hc; [|rewrite Hc; reflexivity].
  destruct (sourceNode e) as [src|]; [|rewrite Hc; reflexivity].
  destruct (isPlaying e) eqn:Hp; simpl; [reflexivity|].
  rewrite Hc, Hp. reflexivity.
Qed.

Lemma pause_frame e :
  buffer (pause e) = buffer e /\ clock (pause e) = clock e
  /\ startTime (pause e) = startTime e
  /\ analyser (pause e) = analyser e
  /\ (context (pause e) = None <-> context e = None).
Proof.
  unfold pause, clock.
  destruct (context e) as [c|] eqn:Hc, (sourceNode e) as [src|] eqn:Hs,
           (isPlaying e) eqn:Hp; simpl; rewrite ?Hc;
    repeat split; intros; congruence.
Qed.

Lemma tick_frame d e :
  buffer (tick d e) = buffer e /\ isPlaying (tick d e) = isPlaying e
  /\ startTime (tick d e) = startTime e /\ pausedAt (tick d e) = pausedAt e
  /\ graphRefs (tick d e) = graphRefs e /\ store (tick d e) = store e.
Proof.
  unfold tick, store. simpl. repeat split.
  destruct (context e) as [c|]; [|reflexivity]. simpl.
  unfold advance. destruct (state c); reflexivity.
Qed.

(** A tick moves the position of a playing engine forward by at most the
    time that passed, and by exactly that time on a running context. *)
Lemma tick_position d e :
  0 <= d ->
  getCurrentTime e <= getCurrentTime (tick d e)
  /\ getCurrentTime (tick d e) <= getCurrentTime e + d
  /\ (isPlaying e = false -> getCurrentTime (tick d e) = getCurrentTime e)
  /\ (isPlaying e = true -> state <$> context e = Some Running ->
      getCurrentTime (tick d e) == getCurrentTime e + d).
Proof.
  intros Hd. unfold tick, getCurrentTime. simpl.
  destruct (context e) as [c|]; simpl.
  - unfold advance.
    destruct (isPlaying e), (state c); simpl;
      repeat split; intros; try discriminate; try lra;
      try reflexivity; try ring.
  - repeat split; intros; try discriminate; try lra; try reflexivity.
Qed.

(** Every call keeps the engine well formed: [isPlaying] is set only
    after [start] has returned on the new source node, and [pause] clears
    both together. *)
Lemma wellFormed_new platform : wellFormed (new platform).
Proof. intros H. discriminate H. Qed.

Lemma wellFormed_play e : wellFormed e -> wellFormed (play e).1.
Proof.
  intros Hwf. unfold play.
  destruct (context e) as [c|]; [|exact Hwf].
  destruct (buffer e) as [b|]; [|exact Hwf].
  destruct (isPlaying e) eqn:Hp.
  - intros _. simpl. apply Hwf, Hp.
  - destruct (buildGraph b (resumeIfSuspended c)) as [g c1].
    destruct (start (g_source g) _ c1); intros _; simpl; eauto.
Qed.

Lemma wellFormed_pause e : wellFormed e -> wellFormed (pause e).
Proof.
  intros Hwf. unfold pause.
  destruct (context e), (sourceNode e) eqn:Hs, (isPlaying e) eqn:Hp;
    intros H; simpl in H; rewrite ?Hs, ?Hp in H; try discriminate H; eauto.
Qed.

Lemma wellFormed_step e ev : wellFormed e -> wellFormed (step e ev).
Proof.
  intros Hwf. destruct ev as [| | |t|d]; simpl.
  - apply wellFormed_play, Hwf.
  - apply wellFormed_pause, Hwf.
  - apply wellFormed_pause in Hwf. exact Hwf.
  - unfold seek. destruct (context e); [|exact Hwf].
    destruct (buffer e); [|exact Hwf].
    destruct (isPlaying e) eqn:Hp.
    + apply wellFormed_play. apply wellFormed_pause in Hwf. exact Hwf.
    + intros H. simpl in H. congruence.
  - exact Hwf.
Qed.

Lemma wellFormed_setStemVolume s v e :
  wellFormed e -> wellFormed (setStemVolume s v e).
Proof.
  intros Hwf. unfold setStemVolume.
  destruct (context e), s, (lowGain e), (midGain e), (highGain e); exact Hwf.
Qed.

End TransportSteps.

(** ** C3 and C4: the position formula and the idempotence of [play] *)

Section PositionFormula.
Import WebAudio Engine Transport.

(** C3. With a context and a buffer, [getCurrentTime] is
    [currentTime - startTime] while playing and [pausedAt] otherwise;
    [play] from a non-playing engine records
    [startTime = currentTime - pausedAt]; [pause] from a playing engine
    stores [pausedAt = currentTime - startTime].  Hence the position is
    frozen while paused, whatever time passes, and the next [play] resumes
    at that position. *)
Theorem C3_position_formula e c b :
  context e = Some c -> buffer e = Some b ->
  getCurrentTime e = (if isPlaying e then currentTime c - startTime e else pausedAt e)
  /\ (isPlaying e = false -> 0 <= pausedAt e ->
      exists e', play e = (e', None)
                 /\ isPlaying e' = true
                 /\ startTime e' = currentTime c - pausedAt e
                 /\ getCurrentTime e' == pausedAt e)
  /\ (isPlaying e = true -> is_Some (sourceNode e) ->
      isPlaying (pause e) = false
      /\ pausedAt (pause e) = currentTime c - startTime e
      /\ (forall d, getCurrentTime (tick d (pause e)) = getCurrentTime e)
      /\ (0 <= getCurrentTime e -> forall d,
          exists e', play (tick d (pause e)) = (e', None)
                     /\ isPlaying e' = true
                     /\ getCurrentTime e' == getCurrentTime e)).
Proof.
  intros Hc Hb. split; [|split].
  - unfold getCurrentTime. rewrite Hc. reflexivity.
  - intros Hp Hoff.
    destruct (play_starts e c b Hc Hb Hp Hoff) as (e' & ? & ? & ? & _ & _ & _ & _ & ?).
    eauto.
  - intros Hp [src Hs].
    destruct (pause_playing e c src Hc Hs Hp) as (Hp' & Hat & _ & Hb' & _ & Hc').
    assert (Hpos : getCurrentTime e = currentTime c - startTime e).
    { unfold getCurrentTime. rewrite Hc, Hp. reflexivity. }
    assert (Hfrozen : forall d, getCurrentTime (tick d (pause e)) = getCurrentTime e).
    { intros d. unfold getCurrentTime at 1. unfold tick. simpl.
      rewrite Hc', Hp', Hat. simpl. congruence. }
    repeat split; auto.
    intros Hnn d.
    destruct (tick_frame d (pause e)) as (Hbt & Hpt & _ & Hat' & _).
    destruct (play_starts (tick d (pause e))
                (advance d (disconnect src (WebAudio.stop src c))) b)
      as (e' & ? & ? & _ & _ & _ & _ & _ & Hres).
    + unfold tick. simpl. rewrite Hc'. reflexivity.
    + congruence.
    + congruence.
    + rewrite Hat', Hat, <- Hpos. exact Hnn.
    + exists e'. repeat split; auto.
      rewrite Hres, Hat', Hat, <- Hpos. reflexivity.
Qed.

Lemma C3_position_formula_witness :
  exists c,
    context Examples.playing = Some c
    /\ buffer Examples.playing = Some Examples.demoBuffer
    /\ isPlaying Examples.playing = true
    /\ is_Some (sourceNode Examples.playing)
    /\ getCurrentTime Examples.playing = currentTime c - startTime Examples.playing
    /\ pausedAt (pause Examples.playing) = currentTime c - startTime Examples.playing
    /\ (forall d, getCurrentTime (tick d (pause Examples.playing))
                  = getCurrentTime Examples.playing)
    /\ (forall d, exists e',
          play (tick d (pause Examples.playing)) = (e', None)
          /\ isPlaying e' = true
          /\ getCurrentTime e' == getCurrentTime Examples.playing).
Proof.
  eexists.
  assert (Hc : context Examples.playing = Some _) by (vm_compute; reflexivity).
  assert (Hb : buffer Examples.playing = Some Examples.demoBuffer)
    by (vm_compute; reflexivity).
  assert (Hp : isPlaying Examples.playing = true) by (vm_compute; reflexivity).
  assert (Hs : is_Some (sourceNode Examples.playing)) by (vm_compute; eauto).
  assert (Hnn : 0 <= getCurrentTime Examples.playing) by (vm_compute; discriminate).
  destruct (C3_position_formula _ _ _ Hc Hb) as (Hq & _ & Hpause).
  destruct (Hpause Hp Hs) as (_ & Hat & Hfrozen & Hresume).
  rewrite Hp in Hq.
  split; [exact Hc|]. split; [exact Hb|]. split; [exact Hp|]. split; [exact Hs|].
  split; [exact Hq|]. split; [exact Hat|]. split; [exact Hfrozen|].
  exact (Hresume Hnn).
Defined.

(** C4. On a playing engine [play] allocates no node, leaves every node,
    connection and node field as it is (the source keeps the playhead it
    was started with), and changes neither [startTime] nor [pausedAt] nor
    the reported position. *)
Theorem C4_play_idempotent e :
  isPlaying e = true ->
  exists e',
    play e = (e', None)
    /\ graphRefs e' = graphRefs e
    /\ store e' = store e
    /\ startTime e' = startTime e
    /\ pausedAt e' = pausedAt e
    /\ isPlaying e' = true
    /\ getCurrentTime e' = getCurrentTime e.
Proof.
  intros Hp.
  destruct (play_noop e (or_introl Hp))
    as (e' & He & Hg & Hs & Hclk & _ & Hst & Hat & Hp').
  exists e'. rewrite Hp in Hp'. repeat split; auto.
  unfold getCurrentTime. unfold clock in Hclk. rewrite Hp', Hp, Hst, Hat.
  destruct (context e'), (context e); simpl in Hclk; try congruence.
Qed.

Lemma C4_play_idempotent_witness :
  isPlaying Examples.playing = true
  /\ exists e', play Examples.playing = (e', None)
                /\ graphRefs e' = graphRefs Examples.playing
                /\ store e' = store Examples.playing
                /\ startTime e' = startTime Examples.playing
                /\ pausedAt e' = pausedAt Examples.playing
                /\ isPlaying e' = true
                /\ getCurrentTime e' = getCurrentTime Examples.playing.
Proof.
  assert (Hp : isPlaying Examples.playing = true) by (vm_compute; reflexivity).
  split; [exact Hp|]. exact (C4_play_idempotent _ Hp).
Defined.

End PositionFormula.

(** ** C1: the position along a sequence of transport calls *)

Section TransportInvariant.
Import WebAudio Engine Transport.

Variable b : AudioBuffer.

Local Abbreviation Inv := (Transport.Inv b).

Lemma Inv_position e : Inv e -> 0 <= getCurrentTime e.
Proof.
  intros (c & Hc & _ & Hat & Hp). unfold getCurrentTime. rewrite Hc.
  destruct (isPlaying e); [|exact Hat]. destruct Hp as [_ Hp]; [reflexivity|]. lra.
Qed.

Lemma Inv_play e :
  Inv e -> Inv (play e).1 /\ getCurrentTime (play e).1 == getCurrentTime e.
Proof.
  intros (c & Hc & Hb & Hat & Hp). destruct (isPlaying e) eqn:Hpl.
  - destruct (play_noop e (or_introl Hpl))
      as (e' & -> & Hg & _ & Hclk & Hb' & Hst & Hat' & Hp').
    simpl. unfold clock in Hclk. rewrite Hc in Hclk.
    destruct (context e') as [c'|] eqn:Hc'; [|discriminate].
    injection Hclk as Hclk. split.
    + exists c'. rewrite Hb', Hat', Hp', Hst, Hclk. repeat split; auto.
      * unfold graphRefs in Hg. injection Hg as ->. apply Hp. reflexivity.
      * apply Hp. reflexivity.
    + unfold getCurrentTime. rewrite Hc', Hc, Hp', Hpl, Hst, Hclk. reflexivity.
  - destruct (play_starts e c b Hc Hb Hpl Hat)
      as (e' & -> & Hp' & Hst & Hat' & Hb' & Hclk & Hsrc & Hpos).
    simpl. unfold clock in Hclk.
    destruct (context e') as [c'|] eqn:Hc'; [|discriminate].
    injection Hclk as Hclk. split.
    + exists c'. rewrite Hat', Hst, Hclk. repeat split; auto. lra.
    + rewrite Hpos. unfold getCurrentTime. rewrite Hc, Hpl. reflexivity.
Qed.

Lemma Inv_pause e :
  Inv e -> Inv (pause e) /\ isPlaying (pause e) = false.
Proof.
  intros (c & Hc & Hb & Hat & Hp). destruct (isPlaying e) eqn:Hpl.
  - destruct Hp as [[src Hs] Hst]; [reflexivity|].
    destruct (pause_playing e c src Hc Hs Hpl) as (Hp' & Hat' & _ & Hb' & _ & Hc').
    split; [|exact Hp']. eexists. split; [exact Hc'|].
    rewrite Hb', Hat', Hp'. repeat split; try discriminate; auto. lra.
  - rewrite (pause_idle e Hpl). split; [|exact Hpl].
    exists c. rewrite Hpl. auto.
Qed.

Lemma Inv_set_pausedAt t e :
  Inv e -> isPlaying e = false -> 0 <= t ->
  Inv (set_pausedAt t e) /\ getCurrentTime (set_pausedAt t e) = t.
Proof.
  intros (c & Hc & Hb & _ & _) Hpl Ht. split.
  - exists c. simpl. rewrite Hpl. repeat split; auto; discriminate.
  - unfold getCurrentTime. simpl. rewrite Hc, Hpl. reflexivity.
Qed.

Lemma Inv_stop e : Inv e -> Inv (stop e) /\ getCurrentTime (stop e) = 0.
Proof.
  intros H. destruct (Inv_pause e H) as [H' Hp']. unfold stop.
  apply Inv_set_pausedAt; auto. lra.
Qed.

Lemma Inv_seek t e :
  Inv e -> 0 <= t -> Inv (seek t e).1 /\ getCurrentTime (seek t e).1 == t.
Proof.
  intros H Ht. pose proof H as (c & Hc & Hb & _). unfold seek. rewrite Hc, Hb.
  destruct (isPlaying e) eqn:Hpl.
  - destruct (Inv_pause e H) as [H1 Hp1].
    destruct (Inv_set_pausedAt t _ H1 Hp1 Ht) as [H2 Hpos2].
    destruct (Inv_play _ H2) as [H3 Hpos3]. split; [exact H3|].
    rewrite Hpos3, Hpos2. reflexivity.
  - destruct (Inv_set_pausedAt t _ H Hpl Ht) as [H2 Hpos2].
    simpl. split; [exact H2|]. rewrite Hpos2. reflexivity.
Qed.

Lemma Inv_tick d e : 0 <= d -> Inv e -> Inv (tick d e).
Proof.
  intros Hd (c & Hc & Hb & Hat & Hp).
  exists (advance d c). unfold tick. simpl. rewrite Hc. repeat split; auto.
  - apply Hp; assumption.
  - destruct Hp as [_ Hst]; [assumption|].
    unfold advance. destruct (state c); simpl; lra.
Qed.

Lemma Inv_step e ev :
  inRange (duration b) ev -> Inv e -> Inv (step e ev).
Proof.
  destruct ev as [| | |t|d]; simpl; intros Hr H.
  - apply Inv_play, H.
  - apply Inv_pause, H.
  - apply Inv_stop, H.
  - apply Inv_seek; tauto.
  - apply Inv_tick; assumption.
Qed.

Lemma Inv_run evs : forall e,
  Forall (inRange (duration b)) evs -> Inv e -> Inv (run e evs).
Proof.
  induction evs as [|ev evs IH]; intros e Hr H; [exact H|].
  apply Forall_cons in Hr as [Hev Hr]. simpl. apply IH; [exact Hr|].
  apply Inv_step; assumption.
Qed.

(** No call moves the position beyond the end of the buffer; only the
    passage of time can. *)
Lemma bounded_run evs : forall e,
  0 <= duration b ->
  Forall (inRange (duration b)) evs -> Inv e ->
  getCurrentTime e <= duration b ->
  withinBuffer (duration b) e evs ->
  getCurrentTime (run e evs) <= duration b.
Proof.
  induction evs as [|ev evs IH]; intros e Hdur Hr H Hle Hw; [exact Hle|].
  apply Forall_cons in Hr as [Hev Hr]. destruct Hw as [Hw1 Hw]. simpl.
  apply IH; auto using Inv_step.
  destruct ev as [| | |t|d]; simpl in *.
  - destruct (Inv_play e H) as [_ ->]. exact Hle.
  - rewrite pause_position. exact Hle.
  - destruct (Inv_stop e H) as [_ ->]. exact Hdur.
  - destruct (Inv_seek t e H) as [_ ->]; tauto.
  - destruct (isPlaying e) eqn:Hpl; [auto|].
    destruct (tick_position d e Hev) as (_ & _ & -> & _); auto.
Qed.

(** Without seek and stop the position never decreases. *)
Lemma forward_run evs : forall e,
  Forall forward evs -> Inv e ->
  getCurrentTime e <= getCurrentTime (run e evs).
Proof.
  induction evs as [|ev evs IH]; intros e Hf H; [simpl; lra|].
  apply Forall_cons in Hf as [Hev Hf]. simpl.
  destruct ev as [| | |t|d]; simpl in *; try contradiction.
  - destruct (Inv_play e H) as [H' Hpos].
    specialize (IH _ Hf H'). rewrite <- Hpos. exact IH.
  - destruct (Inv_pause e H) as [H' _].
    specialize (IH _ Hf H'). rewrite pause_position in IH. exact IH.
  - specialize (IH _ Hf (Inv_tick d e Hev H)).
    destruct (tick_position d e Hev) as (Hle & _). lra.
Qed.

End TransportInvariant.

Section TransportPosition.
Import WebAudio Engine Transport.

Context {File : Type}.
Variable decodeAudioData : File -> option AudioBuffer.

(** A successful load leaves a well-formed engine stopped at position 0
    with the decoded buffer. *)
Lemma loadFile_loaded file e0 e b :
  wellFormed e0 ->
  loadFile decodeAudioData file e0 = (e, inr b) ->
  Inv b e /\ isPlaying e = false /\ pausedAt e = 0 /\ startTime e = 0
  /\ getCurrentTime e = 0 /\ getDuration e = duration b.
Proof.
  intros Hwf. unfold loadFile.
  destruct (context e0) as [c0|] eqn:Hc0; [|discriminate].
  destruct (decodeAudioData file) as [ab|]; [|discriminate].
  intros [= <- <-].
  assert (Hp : isPlaying (pause e0) = false).
  { destruct (isPlaying e0) eqn:Hpl.
    - destruct (Hwf Hpl) as [src Hs].
      apply (pause_playing e0 c0 src Hc0 Hs Hpl).
    - rewrite pause_idle; assumption. }
  assert (Hc : is_Some (context (pause e0))).
  { destruct (context (pause e0)) eqn:Hc; [eauto|].
    apply (pause_frame e0) in Hc. congruence. }
  destruct Hc as [c Hc].
  unfold Inv, getCurrentTime, getDuration. simpl. rewrite Hc, Hp. simpl.
  repeat split; try reflexivity.
  eexists. repeat split; try reflexivity; try discriminate.
Qed.

(** C1, as the engine has it.  After a load, along every sequence of
    play, pause, seek and stop calls and clock ticks in which the seek
    targets lie in [[0, duration]] and no tick is negative: the position
    reported by [getCurrentTime] is never negative; it stays within the
    buffer duration as long as no tick carries a playing engine past the
    end of the buffer; and from any state so reached it does not decrease
    along calls and ticks that are neither a seek nor a stop. *)
Theorem C1_transport_position file e0 e b evs :
  wellFormed e0 ->
  loadFile decodeAudioData file e0 = (e, inr b) ->
  Forall (inRange (duration b)) evs ->
  0 <= getCurrentTime (run e evs)
  /\ (0 <= duration b -> withinBuffer (duration b) e evs ->
      getCurrentTime (run e evs) <= duration b)
  /\ (forall evs', Forall forward evs' ->
      getCurrentTime (run e evs) <= getCurrentTime (run (run e evs) evs')).
Proof.
  intros Hwf Hload Hr.
  destruct (loadFile_loaded file e0 e b Hwf Hload) as (HI & _ & _ & _ & Hpos & _).
  pose proof (Inv_run b evs e Hr HI) as HI'.
  split; [|split].
  - apply (Inv_position b), HI'.
  - intros Hdur Hw. apply (bounded_run b); auto. rewrite Hpos. exact Hdur.
  - intros evs' Hf. apply (forward_run b); assumption.
Qed.

End TransportPosition.

Section TransportExamples.
Import WebAudio Engine Transport Examples.

Lemma C1_transport_position_witness :
  wellFormed fresh
  /\ loadFile demoDecode demoFile fresh = (loaded, inr demoBuffer)
  /\ Forall (inRange (duration demoBuffer)) scenario
  /\ withinBuffer (duration demoBuffer) loaded scenario
  /\ 0 <= getCurrentTime (run loaded scenario)
  /\ getCurrentTime (run loaded scenario) <= duration demoBuffer.
Proof.
  assert (Hwf : wellFormed fresh) by (intros H; vm_compute in H; discriminate H).
  assert (Hload : loadFile demoDecode demoFile fresh = (loaded, inr demoBuffer))
    by (vm_compute; reflexivity).
  assert (Hr : Forall (inRange (duration demoBuffer)) scenario).
  { repeat constructor; vm_compute; discriminate. }
  assert (Hw : withinBuffer (duration demoBuffer) loaded scenario).
  { repeat split. intros _. vm_compute. discriminate. }
  assert (Hdur : 0 <= duration demoBuffer) by (vm_compute; discriminate).
  destruct (C1_transport_position demoDecode demoFile fresh loaded demoBuffer
              scenario Hwf Hload Hr) as (Hlo & Hhi & _).
  split; [exact Hwf|]. split; [exact Hload|]. split; [exact Hr|].
  split; [exact Hw|]. split; [exact Hlo|]. exact (Hhi Hdur Hw).
Defined.

(** C1 as stated fails: a seek target outside the buffer is stored as it
    is, and a playing engine runs past the end of the buffer. *)
Lemma C1_counterexample :
  getDuration loaded = 10
  /\ getCurrentTime (run loaded [Seek (-1)]) = -1
  /\ getCurrentTime (run loaded [Seek (-1)]) < 0
  /\ getCurrentTime (run loaded [Seek 11]) = 11
  /\ getDuration loaded < getCurrentTime (run loaded [Seek 11])
  /\ getCurrentTime (run loaded [Play; Tick 11]) = 11.
Proof. repeat split; vm_compute; reflexivity. Qed.

End TransportExamples.

(** ** C10: the engine before the first successful load *)

Section EmptyPhase.
Import WebAudio Engine Transport.

Lemma Unloaded_fields e :
  Unloaded e -> buffer e = None /\ isPlaying e = false /\ pausedAt e = 0.
Proof.
  induction 1 as [platform|e _ IH|e _ IH|e _ IH|t e _ IH|d e _ IH|s v e _ IH
                 |File decode file e _ IH Hdec];
    try destruct IH as (Hb & Hp & Hat).
  - auto.
  - unfold play. rewrite Hb. destruct (context e); auto.
  - rewrite (pause_idle e Hp). auto.
  - unfold stop. rewrite (pause_idle e Hp). auto.
  - unfold seek. rewrite Hb. destruct (context e); auto.
  - auto.
  - unfold setStemVolume.
    destruct (context e), s, (lowGain e), (midGain e), (highGain e); auto.
  - unfold loadFile. destruct (context e); [|auto].
    rewrite Hdec. unfold stop. rewrite (pause_idle e Hp). auto.
Qed.

Lemma set_pausedAt_same e : set_pausedAt (pausedAt e) e = e.
Proof. destruct e; reflexivity. Qed.

(** C10. Before any file has been decoded, [play], [pause], [seek] and
    [stop] return the engine exactly as it was and throw nothing, and
    [getCurrentTime] and [getDuration] are 0. *)
Theorem C10_empty_phase_noops e :
  Unloaded e ->
  play e = (e, None)
  /\ pause e = e
  /\ (forall t, seek t e = (e, None))
  /\ stop e = e
  /\ getCurrentTime e = 0
  /\ getDuration e = 0.
Proof.
  intros H. destruct (Unloaded_fields e H) as (Hb & Hp & Hat).
  repeat split.
  - unfold play. rewrite Hb. destruct (context e); reflexivity.
  - apply pause_idle, Hp.
  - intros t. unfold seek. rewrite Hb. destruct (context e); reflexivity.
  - unfold stop. rewrite (pause_idle e Hp), <- Hat. apply set_pausedAt_same.
  - unfold getCurrentTime. rewrite Hp, Hat. destruct (context e); reflexivity.
  - unfold getDuration. rewrite Hb. reflexivity.
Qed.

Lemma C10_empty_phase_noops_witness :
  Unloaded (loadFile Examples.demoDecode [] (seek 3 Examples.fresh).1).1
  /\ stop (loadFile Examples.demoDecode [] (seek 3 Examples.fresh).1).1
     = (loadFile Examples.demoDecode [] (seek 3 Examples.fresh).1).1
  /\ getCurrentTime (loadFile Examples.demoDecode [] (seek 3 Examples.fresh).1).1 = 0.
Proof.
  assert (H : Unloaded (loadFile Examples.demoDecode [] (seek 3 Examples.fresh).1).1).
  { apply Unloaded_loadFile; [|reflexivity].
    apply Unloaded_seek, Unloaded_new. }
  split; [exact H|].
  destruct (C10_empty_phase_noops _ H) as (_ & _ & _ & Hstop & Hpos & _).
  split; assumption.
Defined.

End EmptyPhase.

(** ** C2: seek targets and gains are taken as given *)

Section ValuesAsGiven.
Import WebAudio Engine Transport.

Lemma setStemVolume_present s v e c g :
  context e = Some c -> stemGainNode s e = Some g ->
  setStemVolume s v e
  = set_context (Some (gainSetTargetAtTime g v (currentTime c) rampTime c)) e.
Proof.
  intros Hc Hg. unfold setStemVolume. rewrite Hc.
  destruct s; simpl in Hg; rewrite Hg;
    destruct (lowGain e), (midGain e), (highGain e); reflexivity || discriminate.
Qed.

Lemma setStemVolume_absent s v e :
  context e = None \/ stemGainNode s e = None -> setStemVolume s v e = e.
Proof.
  intros H. unfold setStemVolume. destruct (context e) as [c|]; [|reflexivity].
  destruct H as [H|H]; [discriminate|].
  destruct s; simpl in H; rewrite H;
    destruct (lowGain e), (midGain e), (highGain e); reflexivity || discriminate.
Qed.

Lemma stemGain_Some s e p :
  stemGain s e = Some p ->
  exists c g, context e = Some c /\ stemGainNode s e = Some g
              /\ nodes c !! g = Some (Gain p).
Proof.
  unfold stemGain, nodeAt.
  destruct (context e) as [c|]; [|discriminate].
  destruct (stemGainNode s e) as [g|]; [|discriminate]. simpl.
  destruct (nodes c !! g) as [[]|] eqn:Hn; try discriminate.
  intros [= ->]. eauto.
Qed.

(** A gain change schedules one more approach to the given value, starting
    at the current engine clock with time constant [rampTime]; the
    intrinsic value of the parameter is not assigned. *)
Lemma stemGain_setStemVolume s v e p :
  stemGain s e = Some p ->
  exists c, context e = Some c
            /\ stemGain s (setStemVolume s v e)
               = Some (setTargetAtTime v (currentTime c) rampTime p).
Proof.
  intros H. destruct (stemGain_Some s e p H) as (c & g & Hc & Hg & Hn).
  exists c. split; [exact Hc|].
  rewrite (setStemVolume_present s v e c g Hc Hg).
  unfold stemGain, nodeAt.
  replace (stemGainNode s (set_context _ e)) with (Some g)
    by (destruct s; symmetry; exact Hg).
  simpl. rewrite lookup_alter_eq, Hn. reflexivity.
Qed.

Lemma settled_setTargetAtTime v t tc p : settled (setTargetAtTime v t tc p) = v.
Proof. unfold settled, setTargetAtTime. simpl. rewrite last_snoc. reflexivity. Qed.

Lemma settled_setStemVolume s v e p :
  stemGain s e = Some p ->
  settled <$> stemGain s (setStemVolume s v e) = Some v.
Proof.
  intros H. destruct (stemGain_setStemVolume s v e p H) as (c & _ & ->).
  simpl. rewrite settled_setTargetAtTime. reflexivity.
Qed.

(** C2, as the engine has it.  With a buffer loaded, [seek t] stores [t]
    itself as the timeline position, for every [t]; it throws nothing when
    the engine is not playing or [t] is not negative, and then the reported
    position is [t]; on a playing engine a negative [t] reaches
    [start(0, t)], which throws a RangeError.  [setStemVolume] hands the
    value itself to [setTargetAtTime] of the band's gain node, so the gain
    settles at exactly that value; it has no failing path. *)
Theorem C2_seek_and_gain_as_given e c b t :
  context e = Some c -> buffer e = Some b -> wellFormed e ->
  pausedAt (seek t e).1 = t
  /\ (isPlaying e = false \/ 0 <= t ->
      (seek t e).2 = None /\ getCurrentTime (seek t e).1 == t)
  /\ (isPlaying e = true -> t < 0 -> (seek t e).2 = Some RangeError)
  /\ (forall s v p, stemGain s e = Some p ->
      stemGain s (setStemVolume s v e)
      = Some (setTargetAtTime v (currentTime c) rampTime p)
      /\ settled (setTargetAtTime v (currentTime c) rampTime p) = v).
Proof.
  intros Hc Hb Hwf.
  assert (Hgain : forall s v p, stemGain s e = Some p ->
      stemGain s (setStemVolume s v e)
      = Some (setTargetAtTime v (currentTime c) rampTime p)
      /\ settled (setTargetAtTime v (currentTime c) rampTime p) = v).
  { intros s v p H. split; [|apply settled_setTargetAtTime].
    destruct (stemGain_setStemVolume s v e p H) as (c' & Hc' & ->). congruence. }
  unfold seek. rewrite Hc, Hb. destruct (isPlaying e) eqn:Hpl.
  - destruct (Hwf Hpl) as [src Hs].
    destruct (pause_playing e c src Hc Hs Hpl) as (Hp' & _ & _ & Hb' & _ & Hc').
    rewrite Hb in Hb'.
    destruct (Qlt_le_dec t 0) as [Hneg|Hnn].
    + destruct (play_negative (set_pausedAt t (pause e)) _ b Hc' Hb' Hp' Hneg)
        as (e' & -> & _ & Hat & _).
      simpl. split; [exact Hat|]. split; [|split; [reflexivity|exact Hgain]].
      intros [H|H]; [discriminate|lra].
    + destruct (play_starts (set_pausedAt t (pause e)) _ b Hc' Hb' Hp' Hnn)
        as (e' & -> & _ & _ & Hat & _ & _ & _ & Hpos).
      simpl. split; [exact Hat|]. split; [|split; [|exact Hgain]].
      * intros _. split; [reflexivity|exact Hpos].
      * intros _ Hneg. lra.
  - simpl. split; [reflexivity|]. split; [|split; [discriminate|exact Hgain]].
    intros _. split; [reflexivity|].
    unfold getCurrentTime. simpl. rewrite Hc, Hpl. reflexivity.
Qed.

Lemma C2_seek_and_gain_as_given_witness :
  exists c,
    context Examples.paused = Some c
    /\ buffer Examples.paused = Some Examples.demoBuffer
    /\ wellFormed Examples.paused
    /\ pausedAt (seek 11 Examples.paused).1 = 11
    /\ (seek 11 Examples.paused).2 = None.
Proof.
  eexists.
  assert (Hc : context Examples.paused = Some _) by (vm_compute; reflexivity).
  assert (Hb : buffer Examples.paused = Some Examples.demoBuffer)
    by (vm_compute; reflexivity).
  assert (Hwf : wellFormed Examples.paused)
    by (intros H; vm_compute in H; discriminate H).
  destruct (C2_seek_and_gain_as_given _ _ _ 11 Hc Hb Hwf) as (Hat & Hok & _).
  split; [exact Hc|]. split; [exact Hb|]. split; [exact Hwf|].
  split; [exact Hat|]. apply Hok. left. vm_compute. reflexivity.
Defined.

(** C2 as stated fails: nothing is clamped. *)
Lemma C2_counterexample :
  getDuration Examples.loaded = 10
  /\ pausedAt (seek (-1) Examples.loaded).1 = -1
  /\ pausedAt (seek 11 Examples.loaded).1 = 11
  /\ settled <$> stemGain low (setStemVolume low 2 Examples.paused) = Some 2
  /\ settled <$> stemGain low (setStemVolume low (-1) Examples.paused) = Some (-1).
Proof. repeat split; vm_compute; reflexivity. Qed.

End ValuesAsGiven.

(** ** C6: a load that fails to decode *)

Section FailedLoad.
Import WebAudio Engine Transport.

Context {File : Type}.
Variable decodeAudioData : File -> option AudioBuffer.


End FailedLoad.

Section FailedLoadExamples.
Import WebAudio Engine Transport Examples.



End FailedLoadExamples.

(** ** C5: mute, move the slider, unmute *)

Section MuteRoundTrip.
Import WebAudio Engine Transport App.

Context {File : Type}.

Lemma get_set {A} id (v : A) o : get id (set id v o) = v.
Proof. destruct id; reflexivity. Qed.

(** While a band is muted, moving its slider changes the remembered volume
    only: the engine is not called. *)
Lemma slide_muted id vals : forall s : AppState File,
  get id (stemMutes s) = true ->
  audioEngine (slide id vals s) = audioEngine s
  /\ stemMutes (slide id vals s) = stemMutes s
  /\ get id (stemVolumes (slide id vals s))
     = default (get id (stemVolumes s)) (last vals).
Proof.
  induction vals as [|v vals IH]; intros s Hm; [auto|].
  unfold slide in *. simpl foldl.
  destruct (IH (handleStemVolumeChange id v s)) as (He & Hmu & Hv);
    [exact Hm|].
  rewrite He, Hmu, Hv. simpl. rewrite Hm, get_set.
  repeat split. rewrite last_cons. destruct (last vals); reflexivity.
Qed.

Lemma handleStemMute_fields id (s : AppState File) :
  get id (stemMutes (handleStemMute id s)) = negb (get id (stemMutes s))
  /\ stemVolumes (handleStemMute id s) = stemVolumes s
  /\ audioEngine (handleStemMute id s)
     = setStemVolume id (if negb (get id (stemMutes s)) then 0
                         else get id (stemVolumes s)) (audioEngine s).
Proof. simpl. rewrite get_set. auto. Qed.

(** C5. For a band that is not muted, whose gain node exists, and whose
    remembered volume is [g]: the mute toggle makes the gain settle at 0;
    slider moves while muted keep it there; the next toggle makes it settle
    at exactly the last slider value, which is [g] itself when the slider
    was not moved. *)
Theorem C5_mute_unmute_roundtrip (s : AppState File) id g p vals :
  get id (stemMutes s) = false ->
  get id (stemVolumes s) = g ->
  stemGain id (audioEngine s) = Some p ->
  get id (stemMutes (handleStemMute id s)) = true
  /\ settled <$> stemGain id (audioEngine (handleStemMute id s)) = Some 0
  /\ settled <$> stemGain id (audioEngine (slide id vals (handleStemMute id s)))
     = Some 0
  /\ get id (stemMutes (handleStemMute id (slide id vals (handleStemMute id s))))
     = false
  /\ settled <$> stemGain id
       (audioEngine (handleStemMute id (slide id vals (handleStemMute id s))))
     = Some (default g (last vals)).
Proof.
  intros Hm Hv Hp.
  destruct (handleStemMute_fields id s) as (Hm1 & Hv1 & He1).
  rewrite Hm in Hm1, He1. cbn [negb] in Hm1, He1.
  assert (Hg1 : settled <$> stemGain id (audioEngine (handleStemMute id s)) = Some 0).
  { rewrite He1. apply (settled_setStemVolume _ _ _ p Hp). }
  destruct (slide_muted id vals (handleStemMute id s) Hm1) as (He & Hmu & Hvol).
  destruct (handleStemMute_fields id (slide id vals (handleStemMute id s)))
    as (Hm2 & _ & He2).
  rewrite Hmu, Hm1 in Hm2, He2. cbn [negb] in Hm2, He2.
  rewrite He, Hvol, Hv1, Hv in He2.
  split; [exact Hm1|]. split; [exact Hg1|]. split; [rewrite He; exact Hg1|].
  split; [exact Hm2|].
  destruct (stemGain id (audioEngine (handleStemMute id s))) as [p1|] eqn:Hp1;
    [|discriminate].
  rewrite He2. apply (settled_setStemVolume _ _ _ p1 Hp1).
Qed.

End MuteRoundTrip.

(** ** C7: the crossover network built by [play] *)

Section Crossover.
Import WebAudio Engine Transport.
Local Open Scope nat_scope.

Lemma buildGraph_refs b c :
  (buildGraph b c).1
  = mkGraphRefs (nextRef c) (1 + nextRef c) (2 + nextRef c) (3 + nextRef c)
      (4 + nextRef c) (5 + nextRef c) (6 + nextRef c) (7 + nextRef c)
      (8 + nextRef c) (9 + nextRef c).
Proof. destruct c. reflexivity. Qed.

(** The nodes of a new graph: the source holds the buffer and is not yet
    started, every gain is 1, the analyser has 2048 points and smoothing
    0.85, and the four filters are the crossover. *)
Lemma buildGraph_nodes b c :
  nodes (buildGraph b c).2 !! nextRef c = Some (BufferSource (Some b) None false)
  /\ nodes (buildGraph b c).2 !! (1 + nextRef c) = Some (Gain defaultGain)
  /\ nodes (buildGraph b c).2 !! (2 + nextRef c) = Some (Analyser 2048 (85 # 100)%Q)
  /\ nodes (buildGraph b c).2 !! (3 + nextRef c) = Some (BiquadFilter lowpass 250)
  /\ nodes (buildGraph b c).2 !! (4 + nextRef c) = Some (Gain defaultGain)
  /\ nodes (buildGraph b c).2 !! (5 + nextRef c) = Some (BiquadFilter highpass 250)
  /\ nodes (buildGraph b c).2 !! (6 + nextRef c) = Some (BiquadFilter lowpass 4000)
  /\ nodes (buildGraph b c).2 !! (7 + nextRef c) = Some (Gain defaultGain)
  /\ nodes (buildGraph b c).2 !! (8 + nextRef c) = Some (BiquadFilter highpass 4000)
  /\ nodes (buildGraph b c).2 !! (9 + nextRef c) = Some (Gain defaultGain).
Proof.
  destruct c as [st t m conns n]. unfold_graph.
  change (1 + n) with (S n). change (2 + n) with (S (S n)).
  change (3 + n) with (S (S (S n))). change (4 + n) with (S (S (S (S n)))).
  change (5 + n) with (S (S (S (S (S n))))).
  change (6 + n) with (S (S (S (S (S (S n)))))).
  change (7 + n) with (S (S (S (S (S (S (S n))))))).
  change (8 + n) with (S (S (S (S (S (S (S (S n)))))))).
  change (9 + n) with (S (S (S (S (S (S (S (S (S n))))))))).
  repeat split; lookup_store; reflexivity.
Qed.


Lemma buildGraph_nextRef b c : nextRef (buildGraph b c).2 = (10 + nextRef c).
Proof. destruct c. reflexivity. Qed.

Lemma start_nodes r off c c' :
  start r off c = Some c' ->
  (forall i, i <> r -> nodes c' !! i = nodes c !! i)
  /\ connections c' = connections c.
Proof.
  unfold start. destruct (Qle_bool 0 off); [|discriminate].
  intros [= <-]. split; [|reflexivity].
  intros i Hi. simpl. rewrite lookup_alter_ne by congruence. reflexivity.
Qed.

(** What [play] leaves behind on a non-playing engine with a buffer,
    whether [start] then throws or not: the node fields name ten new nodes,
    which are those of [buildGraph] (the source apart, which [start]
    touches), connected as [buildGraph] connected them. *)
Lemma play_graph e c b :
  context e = Some c -> buffer e = Some b -> isPlaying e = false ->
  exists c',
    context (play e).1 = Some c'
    /\ graphRefs (play e).1
       = [Some (nextRef c); Some (1 + nextRef c); Some (2 + nextRef c);
          Some (3 + nextRef c); Some (5 + nextRef c); Some (6 + nextRef c);
          Some (8 + nextRef c);
          Some (4 + nextRef c); Some (7 + nextRef c); Some (9 + nextRef c)]
    /\ (forall i, i <> nextRef c ->
        nodes c' !! i = nodes (buildGraph b (resumeIfSuspended c)).2 !! i)
    /\ connections c' = connections (buildGraph b (resumeIfSuspended c)).2.
Proof.
  intros Hc Hb Hp. unfold play. rewrite Hc, Hb, Hp.
  pose proof (buildGraph_refs b (resumeIfSuspended c)) as Hg.
  destruct (resumeIfSuspended_frame c) as (_ & _ & _ & Hn). rewrite Hn in Hg.
  destruct (buildGraph b (resumeIfSuspended c)) as [g c1].
  cbn [fst snd] in *. subst g. cbn [g_source].
  destruct (start (nextRef c) _ c1) as [c2|] eqn:Hs; cbn [fst].
  - apply start_nodes in Hs as [Hnodes Hconn].
    exists c2. split; [reflexivity|]. split; [reflexivity|]. split; assumption.
  - exists c1. split; [reflexivity|]. split; [reflexivity|]. split; reflexivity.
Qed.

Lemma nodeAt_Some e c i : context e = Some c -> nodeAt e (Some i) = nodes c !! i.
Proof. unfold nodeAt. intros ->. reflexivity. Qed.



End Crossover.

Section CrossoverExamples.
Import WebAudio Engine Transport Examples.


End CrossoverExamples.

(** ** C8: gain changes while paused and while playing *)

Section GainChanges.
Import WebAudio Engine Transport.

(** Every band of a graph that [play] has just built has gain 1 with
    nothing scheduled, whatever was set on the previous graph. *)
Lemma play_fresh_gains e c b s :
  context e = Some c -> buffer e = Some b -> isPlaying e = false ->
  stemGain s (play e).1 = Some defaultGain.
Proof.
  intros Hc Hb Hp.
  destruct (play_graph e c b Hc Hb Hp) as (c' & Hc' & Hrefs & Hnodes & _).
  destruct (buildGraph_nodes b (resumeIfSuspended c))
    as (_ & _ & _ & _ & Hlow & _ & _ & Hmid & _ & Hhigh).
  destruct (resumeIfSuspended_frame c) as (_ & _ & _ & Hn).
  rewrite Hn in Hlow, Hmid, Hhigh. cbn [Nat.add] in Hlow, Hmid, Hhigh.
  unfold graphRefs in Hrefs.
  injection Hrefs as _ _ _ _ _ _ _ HlowG HmidG HhighG.
  unfold stemGain, stemGainNode.
  destruct s; rewrite ?HlowG, ?HmidG, ?HhighG, (nodeAt_Some _ c' _ Hc');
    rewrite Hnodes by lia; rewrite ?Hlow, ?Hmid, ?Hhigh; reflexivity.
Qed.

End GainChanges.

Section GainExamples.
Import WebAudio Engine Transport Examples.

(** C8 on the code.  The low band is set to one half while paused: the
    call is accepted and reaches the gain node of the graph that was torn
    down.  The next [play] builds a graph whose low gain is 1 with nothing
    scheduled.  In the component the play handler re-applies the volumes
    from a timer: until it fires the new graph plays the band at 1, and when
    it fires, 50 ms later, the gain starts to approach one half with time
    constant 0.1 s. *)
Lemma C8_paused_gain_missing_from_fresh_graph :
  isPlaying paused = false
  /\ settled <$> stemGain low quietLow = Some (1 # 2)
  /\ isPlaying (play quietLow).1 = true
  /\ stemGain low (play quietLow).1 = Some defaultGain
  /\ settled defaultGain = 1
  /\ App.get low (App.stemVolumes appReplay) = 1 # 2
  /\ stemGain low (App.audioEngine appReplay) = Some defaultGain
  /\ length (App.timers appReplay) = 1%nat
  /\ value <$> stemGain low (App.audioEngine
                   (App.fireTimer (App.elapse (5 # 100) appReplay))) = Some 1
  /\ settled <$> stemGain low (App.audioEngine
                   (App.fireTimer (App.elapse (5 # 100) appReplay)))
     = Some (1 # 2)
  /\ timeConstant <$> (stemGain low (App.audioEngine
                   (App.fireTimer (App.elapse (5 # 100) appReplay)))
                       ≫= (fun p => last (automation p)))
     = Some (1 # 10).
Proof. repeat split; vm_compute; reflexivity. Qed.

End GainExamples.

(** ** C9: the spectrum query without a graph *)

Section Spectrum.
Import WebAudio Engine Transport Visualizer.

Lemma Unloaded_analyser e : Unloaded e -> analyser e = None.
Proof.
  induction 1 as [platform|e H IH|e H IH|e H IH|t e H IH|d e H IH|s v e H IH
                 |File decode file e H IH Hdec];
    try destruct (Unloaded_fields e H) as (Hb & Hp & Hat).
  - reflexivity.
  - unfold play. rewrite Hb. destruct (context e); exact IH.
  - rewrite (pause_idle e Hp). exact IH.
  - unfold stop. rewrite (pause_idle e Hp). exact IH.
  - unfold seek. rewrite Hb. destruct (context e); exact IH.
  - exact IH.
  - unfold setStemVolume.
    destruct (context e), s, (lowGain e), (midGain e), (highGain e); exact IH.
  - unfold loadFile. destruct (context e); [|exact IH].
    rewrite Hdec. unfold stop. rewrite (pause_idle e Hp). exact IH.
Qed.

Lemma pause_analyser e : analyser (pause e) = analyser e.
Proof.
  unfold pause. destruct (context e), (sourceNode e), (isPlaying e); reflexivity.
Qed.

Lemma NeverPlayed_fields e :
  NeverPlayed e -> analyser e = None /\ isPlaying e = false.
Proof.
  induction 1 as [platform|e H [IHa IHp] Hnone|e H [IHa IHp]|e H [IHa IHp]
                 |t e H [IHa IHp]|d e H [IHa IHp]|s v e H [IHa IHp]
                 |File decode file e H [IHa IHp]].
  - split; reflexivity.
  - unfold play.
    destruct Hnone as [Hn|Hn]; rewrite Hn;
      [|destruct (context e)]; split; assumption.
  - rewrite (pause_idle e IHp). split; assumption.
  - unfold stop. rewrite (pause_idle e IHp). split; assumption.
  - unfold seek. rewrite IHp.
    destruct (context e), (buffer e); split; assumption.
  - split; assumption.
  - unfold setStemVolume.
    destruct (context e), s, (lowGain e), (midGain e), (highGain e);
      split; assumption.
  - unfold loadFile. destruct (context e); [|split; assumption].
    unfold stop. rewrite (pause_idle e IHp).
    destruct (decode file); split; assumption.
Qed.

Lemma play_analyser e :
  is_Some (context e) -> is_Some (buffer e) -> isPlaying e = false ->
  is_Some (analyser (play e).1).
Proof.
  intros [c Hc] [b Hb] Hp. unfold play. rewrite Hc, Hb, Hp.
  destruct (buildGraph b (resumeIfSuspended c)) as [g c'].
  cbv zeta. destruct (start (g_source g) (pausedAt (set_graph g e)) c');
    cbn [fst]; eexists; reflexivity.
Qed.

(** C9, as the code has it.  There is no spectrum query on the engine:
    [getAnalyser] hands out the analyser node.  It is null in every state
    before the first [play] that gets past its guard: on every engine that
    has not loaded a file, and also after files were loaded, whatever
    pauses, stops, seeks, gain changes and clock ticks went before; the
    [play] that finds a context and a buffer on an engine that is not
    playing makes it non-null.  With a null analyser a pass of [render]
    draws nothing: it only requests the next frame, and no frame of zeros
    is produced.  [pause] and [stop] do not clear the analyser, so after a
    teardown the query still returns the analyser of the last graph. *)
Theorem C9_no_analyser_skips_frame
    (data : AudioContext -> NodeRef -> nat -> list nat) e :
  (getAnalyser e = None -> render data e (getAnalyser e) = Skipped)
  /\ (Unloaded e -> getAnalyser e = None)
  /\ (NeverPlayed e -> getAnalyser e = None)
  /\ (is_Some (context e) -> is_Some (buffer e) -> isPlaying e = false ->
      is_Some (getAnalyser (play e).1))
  /\ getAnalyser (pause e) = getAnalyser e
  /\ getAnalyser (stop e) = getAnalyser e.
Proof.
  unfold getAnalyser.
  split; [intros ->; reflexivity|].
  split; [apply Unloaded_analyser|].
  split; [intros H; apply NeverPlayed_fields, H|].
  split; [apply play_analyser|].
  split; [apply pause_analyser|].
  unfold stop. simpl. apply pause_analyser.
Qed.

End Spectrum.

Section SpectrumExamples.
Import WebAudio Engine Transport Visualizer Examples.

(** A file is loaded, the position moved and the low band turned down,
    and nothing has been played: the visualizer still has no analyser. *)
Lemma C9_no_analyser_skips_frame_witness :
  NeverPlayed (setStemVolume low (1 # 2) (seek 3 loaded).1)
  /\ getAnalyser (setStemVolume low (1 # 2) (seek 3 loaded).1) = None
  /\ render silence (setStemVolume low (1 # 2) (seek 3 loaded).1)
       (getAnalyser (setStemVolume low (1 # 2) (seek 3 loaded).1)) = Skipped
  /\ is_Some (getAnalyser (play (setStemVolume low (1 # 2) (seek 3 loaded).1)).1).
Proof.
  assert (Hn : NeverPlayed (setStemVolume low (1 # 2) (seek 3 loaded).1)).
  { apply NeverPlayed_setStemVolume, NeverPlayed_seek.
    apply NeverPlayed_loadFile, NeverPlayed_new. }
  destruct (C9_no_analyser_skips_frame silence
              (setStemVolume low (1 # 2) (seek 3 loaded).1))
    as (Hskip & _ & Hnone & Hplay & _).
  split; [exact Hn|]. split; [exact (Hnone Hn)|].
  split; [exact (Hskip (Hnone Hn))|].
  apply Hplay; [vm_compute; eauto|vm_compute; eauto|vm_compute; reflexivity].
Defined.

(** C9 as stated fails: with no graph the query yields null and the
    visualizer skips the frame; it does not get 1024 zero magnitudes. *)
Lemma C9_counterexample :
  getAnalyser fresh = None
  /\ render silence fresh (getAnalyser fresh) = Skipped
  /\ getAnalyser loaded = None
  /\ render silence loaded (getAnalyser loaded) = Skipped
  /\ Skipped <> zeroFrame.
Proof. repeat split; try (vm_compute; reflexivity). discriminate. Qed.

End SpectrumExamples.

Section MuteExamples.
Import WebAudio Engine Transport App Examples.

Lemma C5_mute_unmute_roundtrip_witness :
  get mid (stemMutes appPlaying) = false
  /\ get mid (stemVolumes appPlaying) = 1
  /\ is_Some (stemGain mid (audioEngine appPlaying))
  /\ settled <$> stemGain mid (audioEngine (handleStemMute mid appPlaying)) = Some 0
  /\ settled <$> stemGain mid
       (audioEngine (handleStemMute mid
          (slide mid [3 # 10; 7 # 10] (handleStemMute mid appPlaying))))
     = Some (7 # 10).
Proof.
  assert (Hm : get mid (stemMutes appPlaying) = false) by (vm_compute; reflexivity).
  assert (Hv : get mid (stemVolumes appPlaying) = 1) by (vm_compute; reflexivity).
  assert (Hp : stemGain mid (audioEngine appPlaying) = Some _)
    by (vm_compute; reflexivity).
  destruct (C5_mute_unmute_roundtrip appPlaying mid 1 _ [3 # 10; 7 # 10] Hm Hv Hp)
    as (_ & Hmuted & _ & _ & Hback).
  split; [exact Hm|]. split; [exact Hv|]. split; [rewrite Hp; eauto|].
  split; [exact Hmuted|]. exact Hback.
Defined.

End MuteExamples.

(** ** Further properties of the engine *)

Section Further.
Import WebAudio Engine Transport Examples.

(** Scenario 6 of the specification: on a ten-second buffer, seek to 5 s,
    play and wait 2 s: the position is 7 s; after [pause] it stays 7 s while
    time passes; [stop] resets it to 0. *)
Example scenario_seek_play_pause_stop :
  getCurrentTime (run loaded [Seek 5; Play; Tick 2]) == 7
  /\ getCurrentTime (run loaded (scenario ++ [Tick 3])) == 7
  /\ getCurrentTime (run loaded (scenario ++ [Stop])) = 0.
Proof. repeat split; vm_compute; reflexivity. Qed.

(** [seek] on a playing engine tears the graph down and builds a new one:
    afterwards every band gain is back at 1 with nothing scheduled. *)
Lemma seek_playing_fresh_gains e c b t s :
  context e = Some c -> buffer e = Some b -> wellFormed e ->
  isPlaying e = true ->
  stemGain s (seek t e).1 = Some defaultGain.
Proof.
  intros Hc Hb Hwf Hp. destruct (Hwf Hp) as [src Hs].
  destruct (pause_playing e c src Hc Hs Hp) as (Hp' & _ & _ & Hb' & _ & Hc').
  unfold seek. rewrite Hc, Hb, Hp.
  eapply (play_fresh_gains (set_pausedAt t (pause e))); [exact Hc'| |exact Hp'].
  simpl. rewrite Hb'. exact Hb.
Qed.

Lemma seek_playing_fresh_gains_witness :
  isPlaying playing = true
  /\ settled <$> stemGain low (setStemVolume low 0 playing) = Some 0
  /\ stemGain low (seek 5 (setStemVolume low 0 playing)).1 = Some defaultGain.
Proof.
  assert (Hc : context (setStemVolume low 0 playing) = Some _)
    by (vm_compute; reflexivity).
  assert (Hb : buffer (setStemVolume low 0 playing) = Some demoBuffer)
    by (vm_compute; reflexivity).
  assert (Hp : isPlaying (setStemVolume low 0 playing) = true)
    by (vm_compute; reflexivity).
  assert (Hwf : wellFormed (setStemVolume low 0 playing))
    by (intros _; vm_compute; eauto).
  split; [vm_compute; reflexivity|]. split; [vm_compute; reflexivity|].
  exact (seek_playing_fresh_gains _ _ _ 5 low Hc Hb Hwf Hp).
Defined.

Lemma play_fresh_gains_witness :
  isPlaying quietLow = false
  /\ settled <$> stemGain low quietLow = Some (1 # 2)
  /\ stemGain low (play quietLow).1 = Some defaultGain.
Proof.
  assert (Hc : context quietLow = Some _) by (vm_compute; reflexivity).
  assert (Hb : buffer quietLow = Some demoBuffer) by (vm_compute; reflexivity).
  assert (Hp : isPlaying quietLow = false) by (vm_compute; reflexivity).
  split; [exact Hp|]. split; [vm_compute; reflexivity|].
  exact (play_fresh_gains _ _ _ low Hc Hb Hp).
Defined.

Lemma loadFile_loaded_witness :
  wellFormed playing
  /\ loadFile demoDecode demoFile playing
     = ((loadFile demoDecode demoFile playing).1, inr demoBuffer)
  /\ isPlaying (loadFile demoDecode demoFile playing).1 = false
  /\ getCurrentTime (loadFile demoDecode demoFile playing).1 = 0
  /\ getDuration (loadFile demoDecode demoFile playing).1 = 10.
Proof.
  assert (Hwf : wellFormed playing) by (intros _; vm_compute; eauto).
  assert (Hl : loadFile demoDecode demoFile playing
               = ((loadFile demoDecode demoFile playing).1, inr demoBuffer))
    by (vm_compute; reflexivity).
  destruct (loadFile_loaded demoDecode demoFile playing _ demoBuffer Hwf Hl)
    as (_ & Hp & _ & _ & Hpos & Hdur).
  split; [exact Hwf|]. split; [exact Hl|]. split; [exact Hp|].
  split; [exact Hpos|]. exact Hdur.
Defined.

End Further.

(** ** How the transport calls compose *)

Section Composition.
Import WebAudio Engine Transport.

Lemma pause_fixed e :
  context e = None \/ sourceNode e = None \/ isPlaying e = false -> pause e = e.
Proof.
  unfold pause. destruct (context e), (sourceNode e), (isPlaying e);
    intros [H|[H|H]]; try discriminate; reflexivity.
Qed.

Lemma pause_after e :
  context (pause e) = None \/ sourceNode (pause e) = None
  \/ isPlaying (pause e) = false.
Proof.
  unfold pause.
  destruct (context e) eqn:Hc, (sourceNode e) eqn:Hs, (isPlaying e) eqn:Hp;
    simpl; auto.
Qed.

(** [pause] and [stop] are idempotent, and each absorbs the other the way
    the source composes them: pausing what is paused or stopped changes
    nothing, and stopping what is paused is stopping. *)
Theorem pause_stop_compose e :
  pause (pause e) = pause e
  /\ stop (stop e) = stop e
  /\ stop (pause e) = stop e
  /\ pause (stop e) = stop e.
Proof.
  assert (H1 : pause (pause e) = pause e) by apply pause_fixed, pause_after.
  assert (H2 : pause (stop e) = stop e).
  { apply pause_fixed. unfold stop. simpl. apply pause_after. }
  split; [exact H1|]. split; [|split; [|exact H2]].
  - unfold stop at 1. rewrite H2. reflexivity.
  - unfold stop. rewrite H1. reflexivity.
Qed.

Lemma running_resumeIfSuspended c :
  state c = Running -> resumeIfSuspended c = c.
Proof. unfold resumeIfSuspended. intros ->. reflexivity. Qed.

Lemma running_play e : running e -> running (play e).1.
Proof.
  intros H. unfold play. destruct (context e) as [c|] eqn:Hc; [|exact H].
  destruct (buffer e) as [b|]; [|exact H].
  assert (Hst : state c = Running).
  { unfold running in H. rewrite Hc in H. injection H as H. exact H. }
  rewrite (running_resumeIfSuspended c Hst). unfold running.
  destruct (isPlaying e); [simpl; congruence|].
  pose proof (buildGraph_state b c) as Hb.
  destruct (buildGraph b c) as [g c1]. cbn [snd] in Hb.
  destruct (start (g_source g) _ c1) as [c2|] eqn:Hs; simpl.
  - apply start_Some in Hs as (_ & _ & -> & _). congruence.
  - congruence.
Qed.

Lemma running_pause e : running e -> running (pause e).
Proof.
  unfold running, pause.
  destruct (context e) as [c|] eqn:Hc; [|discriminate].
  destruct (sourceNode e), (isPlaying e); simpl; rewrite ?Hc; auto.
Qed.

Lemma running_seek t e : running e -> running (seek t e).1.
Proof.
  intros H. unfold seek.
  destruct (context e); [|exact H]. destruct (buffer e); [|exact H].
  destruct (isPlaying e); [|exact H].
  apply running_play. apply running_pause in H. exact H.
Qed.

Lemma tick_paused d e :
  isPlaying e = false -> getCurrentTime (tick d e) = getCurrentTime e.
Proof.
  intros Hp. unfold getCurrentTime, tick. simpl. rewrite Hp.
  destruct (context e); reflexivity.
Qed.

Lemma play_plays b e : Inv b e -> isPlaying (play e).1 = true.
Proof.
  intros (c & Hc & Hb & Hat & _). destruct (isPlaying e) eqn:Hp.
  - destruct (play_noop e (or_introl Hp)) as (e' & -> & _ & _ & _ & _ & _ & _ & Hp').
    simpl. congruence.
  - destruct (play_starts e c b Hc Hb Hp Hat) as (e' & -> & Hp' & _). exact Hp'.
Qed.

(** From any state of a loaded engine on a running context, playing or
    not: seek to [t], play, and let [d] seconds pass; the position is
    [t + d].  A pause then freezes it there whatever time passes, and a stop
    resets it to 0 and leaves the engine not playing. *)
Theorem seek_play_elapse b e t d d' :
  Inv b e -> running e -> 0 <= t -> 0 <= d ->
  getCurrentTime (run e [Seek t; Play; Tick d]) == t + d
  /\ getCurrentTime (run e [Seek t; Play; Tick d; Pause; Tick d']) == t + d
  /\ getCurrentTime (run e [Seek t; Play; Tick d; Stop]) = 0
  /\ isPlaying (run e [Seek t; Play; Tick d; Stop]) = false.
Proof.
  intros HI Hr Ht Hd.
  change (run e [Seek t; Play; Tick d])
    with (tick d (play (seek t e).1).1).
  change (run e [Seek t; Play; Tick d; Pause; Tick d'])
    with (tick d' (pause (tick d (play (seek t e).1).1))).
  change (run e [Seek t; Play; Tick d; Stop])
    with (stop (tick d (play (seek t e).1).1)).
  destruct (Inv_seek b t e HI Ht) as [HI1 Hpos1].
  pose proof (running_seek t e Hr) as Hr1.
  destruct (Inv_play b _ HI1) as [HI2 Hpos2].
  pose proof (play_plays b _ HI1) as Hp2.
  pose proof (running_play _ Hr1) as Hr2.
  destruct (tick_position d (play (seek t e).1).1 Hd) as (_ & _ & _ & Hpos3).
  specialize (Hpos3 Hp2 Hr2).
  pose proof (Inv_tick b d _ Hd HI2) as HI3.
  destruct (Inv_pause b _ HI3) as [_ Hp4].
  destruct (Inv_stop b _ HI3) as [_ Hpos5].
  assert (Hsum : getCurrentTime (tick d (play (seek t e).1).1) == t + d).
  { rewrite Hpos3, Hpos2, Hpos1. reflexivity. }
  split; [exact Hsum|]. split; [|split; [exact Hpos5|exact Hp4]].
  rewrite (tick_paused d' _ Hp4), pause_position. exact Hsum.
Qed.

End Composition.

(** ** What holds in every reachable state of the engine *)

Section ReachableStates.
Import WebAudio Engine Transport.

Local Arguments buildGraph : simpl never.
Local Arguments resumeIfSuspended : simpl never.

Lemma bandsApart_gainRefs e e' :
  gainRefs e' = gainRefs e -> bandsApart e -> bandsApart e'.
Proof.
  unfold gainRefs. intros [= Hl Hm Hh] H s s' g Hne.
  specialize (H s s' g Hne).
  destruct s, s'; simpl in *; rewrite ?Hl, ?Hm, ?Hh; exact H.
Qed.

Lemma gainRefs_pause e : gainRefs (pause e) = gainRefs e.
Proof.
  unfold pause. destruct (context e), (sourceNode e), (isPlaying e); reflexivity.
Qed.

Lemma gainRefs_setStemVolume s v e : gainRefs (setStemVolume s v e) = gainRefs e.
Proof.
  unfold setStemVolume.
  destruct (context e), s, (lowGain e) eqn:Hl, (midGain e) eqn:Hm,
    (highGain e) eqn:Hh; unfold gainRefs; simpl; rewrite ?Hl, ?Hm, ?Hh; reflexivity.
Qed.

(** A graph that [play] has just built. *)
Lemma play_fresh_sound e c b :
  context e = Some c -> buffer e = Some b -> isPlaying e = false ->
  wellFormed (play e).1 /\ bandsApart (play e).1 /\ playingSource (play e).1.
Proof.
  intros Hc Hb Hp. split; [|split].
  - intros _. destruct (play_graph e c b Hc Hb Hp) as (c' & _ & Hrefs & _).
    unfold graphRefs in Hrefs. injection Hrefs as Hsrc _. eauto.
  - destruct (play_graph e c b Hc Hb Hp) as (c' & _ & Hrefs & _).
    unfold graphRefs in Hrefs.
    injection Hrefs as _ _ _ _ _ _ _ HlowG HmidG HhighG.
    intros s s' g Hne.
    destruct s, s'; simpl; rewrite ?HlowG, ?HmidG, ?HhighG;
      try congruence; intros [= <-] [= H]; lia.
  - unfold playingSource, play. rewrite Hc, Hb, Hp.
    destruct (buildGraph_nodes b (resumeIfSuspended c)) as (Hsrc & _).
    pose proof (buildGraph_refs b (resumeIfSuspended c)) as Hg.
    pose proof (buildGraph_currentTime b (resumeIfSuspended c)) as Ht.
    destruct (buildGraph b (resumeIfSuspended c)) as [g c1].
    cbn [fst snd] in *. subst g. cbn [g_source].
    unfold start. destruct (Qle_bool 0 (pausedAt (set_graph _ e))); simpl.
    + intros _. eexists _, _, _. split; [reflexivity|]. split; [reflexivity|].
      rewrite Hb. split; [eauto|]. split.
      * unfold update, withNodes. cbn [nodes].
        rewrite lookup_alter_eq, Hsrc. reflexivity.
      * simpl. ring.
    + intros H. congruence.
Qed.

Lemma playingSource_play e :
  wellFormed e -> playingSource e -> playingSource (play e).1.
Proof.
  intros Hwf Hps.
  destruct (context e) as [c|] eqn:Hc; [destruct (buffer e) as [b|] eqn:Hb|].
  - destruct (isPlaying e) eqn:Hp.
    + unfold play. rewrite Hc, Hb, Hp. simpl. intros _.
      destruct (Hps Hp) as (c0 & src & ph & Hc0 & Hs & Hbuf & Hn & Hst).
      rewrite Hc in Hc0. injection Hc0 as <-.
      exists (resumeIfSuspended c), src, ph. simpl.
      destruct (resumeIfSuspended_frame c) as (_ & -> & _).
      rewrite Hb in *. auto.
    + exact (proj2 (proj2 (play_fresh_sound e c b Hc Hb Hp))).
  - unfold play. rewrite Hc, Hb. exact Hps.
  - unfold play. rewrite Hc. exact Hps.
Qed.

Lemma gainRefs_play e :
  gainRefs (play e).1 = gainRefs e
  \/ exists c b, context e = Some c /\ buffer e = Some b /\ isPlaying e = false.
Proof.
  destruct (context e) as [c|] eqn:Hc; [destruct (buffer e) as [b|] eqn:Hb|].
  - destruct (isPlaying e) eqn:Hp; [|right; exists c, b; auto].
    left. unfold play. rewrite Hc, Hb, Hp. reflexivity.
  - left. unfold play. rewrite Hc, Hb. reflexivity.
  - left. unfold play. rewrite Hc. reflexivity.
Qed.

Lemma bandsApart_play e : bandsApart e -> bandsApart (play e).1.
Proof.
  intros H. destruct (gainRefs_play e) as [Hg|(c & b & Hc & Hb & Hp)].
  - exact (bandsApart_gainRefs _ _ Hg H).
  - exact (proj1 (proj2 (play_fresh_sound e c b Hc Hb Hp))).
Qed.

Lemma not_playing_sound e : isPlaying e = false -> playingSource e.
Proof. intros Hp H. congruence. Qed.

Lemma sound_pause_stops e :
  wellFormed e -> playingSource e -> isPlaying (pause e) = false.
Proof.
  intros Hwf Hps. destruct (isPlaying e) eqn:Hp; [|rewrite pause_idle; assumption].
  destruct (Hps Hp) as (c & src & _ & Hc & Hs & _).
  apply (pause_playing e c src Hc Hs Hp).
Qed.

End ReachableStates.

Section ReachableInvariant.
Import WebAudio Engine Transport.

Local Arguments buildGraph : simpl never.
Local Arguments resumeIfSuspended : simpl never.

Lemma not_playing_wellFormed e : isPlaying e = false -> wellFormed e.
Proof. intros Hp H. congruence. Qed.

Lemma nodes_advance d c : nodes (advance d c) = nodes c.
Proof. unfold advance. destruct (state c); reflexivity. Qed.

Lemma playingSource_tick d e : playingSource e -> playingSource (tick d e).
Proof.
  intros Hps Hp. destruct (Hps Hp) as (c & src & ph & Hc & Hs & Hbuf & Hn & Hst).
  exists (advance d c), src, ph. unfold tick. simpl. rewrite Hc, nodes_advance.
  auto.
Qed.

Lemma playingSource_setStemVolume s v e :
  playingSource e -> playingSource (setStemVolume s v e).
Proof.
  intros Hps.
  destruct (context e) as [c|] eqn:Hc;
    [|rewrite setStemVolume_absent; auto].
  destruct (stemGainNode s e) as [g|] eqn:Hg;
    [|rewrite setStemVolume_absent; auto].
  rewrite (setStemVolume_present s v e c g Hc Hg). intros Hp. simpl in Hp.
  destruct (Hps Hp) as (c0 & src & ph & Hc0 & Hs & Hbuf & Hn & Hst).
  rewrite Hc in Hc0. injection Hc0 as <-.
  eexists _, src, ph. simpl. split; [reflexivity|].
  split; [exact Hs|]. split; [exact Hbuf|]. split; [|exact Hst].
  unfold gainSetTargetAtTime, update, withNodes. cbn [nodes].
  destruct (decide (g = src)) as [->|Hne].
  - rewrite lookup_alter_eq, Hn. reflexivity.
  - rewrite lookup_alter_ne by exact Hne. exact Hn.
Qed.

(** In every reachable state a playing engine holds its source node, no
    two bands share a gain node, and what plays is the loaded buffer. *)
Lemma Reachable_sound e :
  Reachable e -> wellFormed e /\ bandsApart e /\ playingSource e.
Proof.
  induction 1 as [platform|e H IH|e H IH|e H IH|t e H IH|d e H IH|s v e H IH
                 |File decode file e H IH];
    try destruct IH as (Hwf & Hba & Hps).
  - split; [apply wellFormed_new|]. split; [|apply not_playing_sound; reflexivity].
    intros s s' g _ Hs. destruct s; discriminate Hs.
  - auto using wellFormed_play, bandsApart_play, playingSource_play.
  - split; [apply wellFormed_pause, Hwf|]. split.
    + exact (bandsApart_gainRefs _ _ (gainRefs_pause e) Hba).
    + apply not_playing_sound, sound_pause_stops; assumption.
  - pose proof (sound_pause_stops e Hwf Hps) as Hp.
    split; [apply not_playing_wellFormed; exact Hp|]. split.
    + exact (bandsApart_gainRefs (pause e) (stop e) eq_refl
               (bandsApart_gainRefs _ _ (gainRefs_pause e) Hba)).
    + apply not_playing_sound. exact Hp.
  - unfold seek.
    destruct (context e) as [c|] eqn:Hc; [|auto].
    destruct (buffer e) as [b|] eqn:Hb; [|auto].
    destruct (isPlaying e) eqn:Hp.
    + destruct (Hps Hp) as (c0 & src & _ & Hc0 & Hs & _).
      destruct (pause_playing e c0 src Hc0 Hs Hp) as (Hp' & _ & _ & Hb' & _ & Hc').
      apply (play_fresh_sound (set_pausedAt t (pause e)) _ b Hc');
        [simpl; congruence|exact Hp'].
    + simpl. split; [apply not_playing_wellFormed; exact Hp|]. split.
      * exact (bandsApart_gainRefs e (set_pausedAt t e) eq_refl Hba).
      * apply not_playing_sound. exact Hp.
  - split; [exact Hwf|]. split.
    + exact (bandsApart_gainRefs e (tick d e) eq_refl Hba).
    + apply playingSource_tick, Hps.
  - split; [apply wellFormed_setStemVolume, Hwf|]. split.
    + exact (bandsApart_gainRefs _ _ (gainRefs_setStemVolume s v e) Hba).
    + apply playingSource_setStemVolume, Hps.
  - unfold loadFile. destruct (context e) as [c|] eqn:Hc; [|auto].
    pose proof (sound_pause_stops e Hwf Hps) as Hp.
    pose proof (bandsApart_gainRefs _ _ (gainRefs_pause e) Hba) as Hba'.
    destruct (decode file); simpl;
      (split; [apply not_playing_wellFormed; exact Hp|]; split;
       [|apply not_playing_sound; exact Hp]).
    + refine (bandsApart_gainRefs (pause e) _ eq_refl Hba').
    + refine (bandsApart_gainRefs (pause e) _ eq_refl Hba').
Qed.

End ReachableInvariant.

Section ReachableProperties.
Import WebAudio Engine Transport.

(** In every reachable state where the engine is playing, the position it
    reports is the playhead of its source node (the offset the source was
    started at plus the clock time since), and that source holds the buffer
    that is loaded: the time shown is the time heard. *)
Theorem playing_position_is_playhead e :
  Reachable e -> isPlaying e = true ->
  exists p,
    playhead e = Some p
    /\ p == getCurrentTime e
    /\ sourceBuffer e = buffer e
    /\ is_Some (buffer e).
Proof.
  intros Hr Hp. destruct (Reachable_sound e Hr) as (_ & _ & Hps).
  destruct (Hps Hp) as (c & src & ph & Hc & Hs & Hbuf & Hn & Hst).
  exists (startOffset ph + (currentTime c - startedAtClock ph)).
  unfold playhead, sourceBuffer, getCurrentTime. rewrite Hc, Hs, Hp. simpl.
  rewrite Hn. simpl. repeat split; auto.
  rewrite Hst. ring.
Qed.

Lemma stemGain_other_band e s s' v :
  bandsApart e -> s <> s' ->
  stemGain s' (setStemVolume s v e) = stemGain s' e.
Proof.
  intros Hba Hne.
  destruct (context e) as [c|] eqn:Hc;
    [|rewrite setStemVolume_absent; auto].
  destruct (stemGainNode s e) as [g|] eqn:Hg;
    [|rewrite setStemVolume_absent; auto].
  rewrite (setStemVolume_present s v e c g Hc Hg).
  unfold stemGain, nodeAt.
  replace (stemGainNode s' (set_context _ e)) with (stemGainNode s' e)
    by (destruct s'; reflexivity).
  simpl. rewrite Hc. simpl.
  destruct (stemGainNode s' e) as [g'|] eqn:Hg'; [|reflexivity]. simpl.
  rewrite lookup_alter_ne; [reflexivity|].
  intros ->. exact (Hba s s' g' Hne Hg Hg').
Qed.

(** In every reachable state, setting the gain of one band leaves the gain
    parameter of every other band as it is, and touches neither the
    transport state nor the reported position and duration. *)
Theorem bands_independent e s s' v :
  Reachable e -> s <> s' ->
  stemGain s' (setStemVolume s v e) = stemGain s' e
  /\ isPlaying (setStemVolume s v e) = isPlaying e
  /\ getCurrentTime (setStemVolume s v e) = getCurrentTime e
  /\ getDuration (setStemVolume s v e) = getDuration e
  /\ graphRefs (setStemVolume s v e) = graphRefs e.
Proof.
  intros Hr Hne. destruct (Reachable_sound e Hr) as (_ & Hba & _).
  split; [exact (stemGain_other_band e s s' v Hba Hne)|].
  destruct (context e) as [c|] eqn:Hc;
    [|rewrite setStemVolume_absent; auto].
  destruct (stemGainNode s e) as [g|] eqn:Hg;
    [|rewrite setStemVolume_absent; auto].
  rewrite (setStemVolume_present s v e c g Hc Hg).
  unfold getCurrentTime. simpl. rewrite Hc. auto.
Qed.

(** [pause] on a playing engine silences the source and nothing else: the
    source node is stopped and has no outgoing connection left, the engine
    forgets it, and every other node, connection and node field of the
    graph stays as it was. *)
Theorem pause_silences_source e c src :
  context e = Some c -> sourceNode e = Some src -> isPlaying e = true ->
  exists c',
    context (pause e) = Some c'
    /\ graphRefs (pause e) = None :: tail (graphRefs e)
    /\ (forall j, (src, j) ∉ connections c')
    /\ (forall i j, i <> src -> (i, j) ∈ connections c' <-> (i, j) ∈ connections c)
    /\ (forall i, i <> src -> nodes c' !! i = nodes c !! i)
    /\ (forall bf st sp, nodes c !! src = Some (BufferSource bf st sp) ->
        nodes c' !! src = Some (BufferSource bf st true)).
Proof.
  intros Hc Hs Hp. unfold pause. rewrite Hc, Hs, Hp.
  eexists. split; [reflexivity|]. split; [reflexivity|].
  unfold disconnect, WebAudio.stop, update, withNodes. cbn [connections nodes].
  split; [|split; [|split]].
  - intros j Hin. apply list_elem_of_filter in Hin as [Hne _]. apply Hne. reflexivity.
  - intros i j Hne. rewrite list_elem_of_filter. simpl. tauto.
  - intros i Hne. rewrite lookup_alter_ne by congruence. reflexivity.
  - intros bf st sp Hn. rewrite lookup_alter_eq, Hn. reflexivity.
Qed.

End ReachableProperties.

Section LoadSuccess.
Import WebAudio Engine Transport.

Context {File : Type}.
Variable decodeAudioData : File -> option AudioBuffer.

(** A load that decodes, from any reachable state with a context, playing
    or not and whatever was loaded before: the call returns the decoded
    buffer; the engine holds it, is not playing, reports position 0 and the
    duration of the new buffer; the context is no longer suspended; and the
    analyser of the last graph is still the one [getAnalyser] returns. *)
Theorem loadFile_replaces file e ab :
  Reachable e -> is_Some (context e) -> decodeAudioData file = Some ab ->
  exists e',
    loadFile decodeAudioData file e = (e', inr ab)
    /\ buffer e' = Some ab
    /\ isPlaying e' = false
    /\ getCurrentTime e' = 0
    /\ getDuration e' = duration ab
    /\ state <$> context e' <> Some Suspended
    /\ getAnalyser e' = getAnalyser e
    /\ Inv ab e'.
Proof.
  intros Hr [c Hc] Hdec. destruct (Reachable_sound e Hr) as (Hwf & _ & _).
  assert (Hload : exists e', loadFile decodeAudioData file e = (e', inr ab)
                             /\ buffer e' = Some ab
                             /\ state <$> context e' <> Some Suspended
                             /\ getAnalyser e' = getAnalyser e).
  { unfold loadFile. rewrite Hc, Hdec. eexists. split; [reflexivity|].
    simpl. split; [reflexivity|]. split; [|apply pause_frame].
    destruct (context (pause e)) as [c'|]; simpl; [|discriminate].
    unfold resumeIfSuspended. destruct (state c') eqn:Hst; simpl;
      rewrite ?Hst; discriminate. }
  destruct Hload as (e' & Hl & Hb & Hst & Han).
  destruct (loadFile_loaded decodeAudioData file e e' ab Hwf Hl)
    as (HI & Hp & _ & _ & Hpos & Hdur).
  exists e'. auto 10.
Qed.

End LoadSuccess.

(** ** The component: what the handlers keep in step with the engine *)

Section ComponentSync.
Import WebAudio Engine Transport App.

Context {File : Type}.
Variable decodeAudioData : File -> option AudioBuffer.

Lemma bandsApart_setStemVolume s v e :
  bandsApart e -> bandsApart (setStemVolume s v e).
Proof. apply bandsApart_gainRefs, gainRefs_setStemVolume. Qed.

(** The timer callback sets every band to what its closure holds. *)
Lemma reapplyVolumes_settles t e :
  bandsApart e -> (forall k, is_Some (stemGain k e)) ->
  forall k, settled <$> stemGain k (reapplyVolumes t e)
            = Some (if get k (t_stemMutes t) then 0 else get k (t_stemVolumes t)).
Proof.
  intros Hba Hall k. unfold reapplyVolumes. cbn [foldl].
  set (vl := if get low (t_stemMutes t) then 0 else get low (t_stemVolumes t)).
  set (vm := if get mid (t_stemMutes t) then 0 else get mid (t_stemVolumes t)).
  set (vh := if get high (t_stemMutes t) then 0 else get high (t_stemVolumes t)).
  set (e1 := setStemVolume low vl e).
  set (e2 := setStemVolume mid vm e1).
  assert (Hba1 : bandsApart e1) by apply bandsApart_setStemVolume, Hba.
  assert (Hba2 : bandsApart e2) by apply bandsApart_setStemVolume, Hba1.
  destruct (Hall low) as [pl Hl], (Hall mid) as [pm Hm], (Hall high) as [ph Hh].
  destruct k.
  - rewrite (stemGain_other_band e2 high low vh Hba2) by discriminate.
    unfold e2. rewrite (stemGain_other_band e1 mid low vm Hba1) by discriminate.
    exact (settled_setStemVolume low vl e pl Hl).
  - rewrite (stemGain_other_band e2 high mid vh Hba2) by discriminate.
    apply (settled_setStemVolume mid vm e1 pm).
    unfold e1. rewrite (stemGain_other_band e low mid vl Hba) by discriminate.
    exact Hm.
  - apply (settled_setStemVolume high vh e2 ph).
    unfold e2. rewrite (stemGain_other_band e1 mid high vm Hba1) by discriminate.
    unfold e1. rewrite (stemGain_other_band e low high vl Hba) by discriminate.
    exact Hh.
Qed.

Lemma stemGain_tick d k e : stemGain k (tick d e) = stemGain k e.
Proof.
  unfold stemGain, nodeAt, tick. simpl.
  replace (stemGainNode k (set_context _ e)) with (stemGainNode k e)
    by (destruct k; reflexivity).
  destruct (context e) as [c|]; [|reflexivity]. simpl.
  rewrite nodes_advance. reflexivity.
Qed.

(** The Play button on a loaded, paused player with no timer pending: the
    graph that starts has every band at gain 1 with nothing scheduled,
    whatever the sliders and mute buttons say; once the 50 ms timer of the
    handler has fired, every band settles at what the component wants, its
    slider value or 0 when muted. *)
Theorem play_button_reapplies_volumes (s : AppState File) c b d :
  file s <> None -> isPlaying s = false -> timers s = [] ->
  context (audioEngine s) = Some c -> buffer (audioEngine s) = Some b ->
  Engine.isPlaying (audioEngine s) = false -> 0 <= pausedAt (audioEngine s) ->
  isPlaying (handlePlayPause s) = true
  /\ Engine.isPlaying (audioEngine (handlePlayPause s)) = true
  /\ timers (fireTimer (elapse d (handlePlayPause s))) = []
  /\ forall k,
      stemGain k (audioEngine (handlePlayPause s)) = Some defaultGain
      /\ settled <$> stemGain k (audioEngine (fireTimer (elapse d (handlePlayPause s))))
         = Some (wanted k s).
Proof.
  intros Hfile Hui Htimers Hc Hb Hp Hoff.
  destruct (play_starts _ c b Hc Hb Hp Hoff) as (e' & Hplay & Hp' & _).
  assert (He' : e' = (play (audioEngine s)).1) by (rewrite Hplay; reflexivity).
  assert (Hs' : handlePlayPause s
                = {| file := file s; isPlaying := true;
                     currentTime := currentTime s; duration := duration s;
                     errorMsg := errorMsg s;
                     stemVolumes := stemVolumes s; stemMutes := stemMutes s;
                     audioEngine := e';
                     timers := [mkTimer 50 (stemVolumes s) (stemMutes s)] |}).
  { unfold handlePlayPause. destruct (file s); [|congruence].
    rewrite Hui, Hplay, Htimers. reflexivity. }
  rewrite Hs'. cbn [elapse with_engine fireTimer audioEngine timers isPlaying
                    file currentTime duration errorMsg stemVolumes stemMutes].
  split; [reflexivity|]. split; [exact Hp'|]. split; [reflexivity|].
  assert (Hfresh : forall k, stemGain k e' = Some defaultGain).
  { intros k. rewrite He'. apply (play_fresh_gains _ c b k Hc Hb Hp). }
  intros k. split; [apply Hfresh|].
  assert (Hba : bandsApart (tick d e')).
  { apply (bandsApart_gainRefs e' (tick d e') eq_refl). rewrite He'.
    exact (proj1 (proj2 (play_fresh_sound _ c b Hc Hb Hp))). }
  rewrite (reapplyVolumes_settles _ (tick d e') Hba).
  - reflexivity.
  - intros k'. rewrite stemGain_tick, Hfresh. eauto.
Qed.

End ComponentSync.

Section ComponentInvariant.
Import WebAudio Engine Transport App.

Context {File : Type}.
Variable decodeAudioData : File -> option AudioBuffer.

Lemma Inv_setStemVolume b s v e :
  Inv b e ->
  Inv b (setStemVolume s v e)
  /\ Engine.isPlaying (setStemVolume s v e) = Engine.isPlaying e.
Proof.
  intros HI. pose proof HI as (c & Hc & Hb & Hat & Hp).
  destruct (stemGainNode s e) as [g|] eqn:Hg;
    [|rewrite setStemVolume_absent; auto].
  rewrite (setStemVolume_present s v e c g Hc Hg). split; [|reflexivity].
  eexists. split; [reflexivity|]. simpl. auto.
Qed.

Lemma isPlaying_seek b t e :
  Inv b e -> 0 <= t -> Engine.isPlaying (seek t e).1 = Engine.isPlaying e.
Proof.
  intros HI Ht. pose proof HI as (c & Hc & Hb & _). unfold seek. rewrite Hc, Hb.
  destruct (Engine.isPlaying e) eqn:Hp; [|exact Hp].
  destruct (Inv_pause b e HI) as [H1 Hp1].
  destruct (Inv_set_pausedAt b t _ H1 Hp1 Ht) as [H2 _].
  exact (play_plays b _ H2).
Qed.

Lemma isPlaying_setStemVolume s v e :
  Engine.isPlaying (setStemVolume s v e) = Engine.isPlaying e.
Proof.
  unfold setStemVolume.
  destruct (context e), s, (lowGain e), (midGain e), (highGain e); reflexivity.
Qed.

Lemma reapplyVolumes_keeps b t e :
  Reachable e ->
  Reachable (reapplyVolumes t e)
  /\ (Inv b e -> Inv b (reapplyVolumes t e))
  /\ Engine.isPlaying (reapplyVolumes t e) = Engine.isPlaying e.
Proof.
  intros Hr. unfold reapplyVolumes. cbn [foldl].
  split; [auto using Reachable_setStemVolume|]. split.
  - intros HI. repeat apply Inv_setStemVolume. exact HI.
  - rewrite !isPlaying_setStemVolume. reflexivity.
Qed.

(** The two halves of a load make up the load, and the engine a started
    load leaves is the engine a failed load leaves. *)
Lemma loadFile_halves file e :
  loadFile decodeAudioData file e
  = loadFile_settle decodeAudioData (loadFile_start file e).2
      (loadFile_start file e).1.
Proof.
  unfold loadFile, loadFile_start, loadFile_settle.
  destruct (context e); [|reflexivity]. cbn [fst snd].
  destruct (decodeAudioData file); reflexivity.
Qed.

Lemma loadFile_start_failed (file : File) e :
  (loadFile_start file e).1 = (loadFile (fun _ : File => None) file e).1.
Proof.
  unfold loadFile, loadFile_start. destruct (context e); reflexivity.
Qed.

(** An upload during which no other handler runs is [handleFileUpload]. *)
Lemma handleFileUpload_halves f (p : Player File) :
  handleFileUpload_resume decodeAudioData (handleFileUpload_start f p)
  = {| shown := handleFileUpload decodeAudioData f (shown p);
       loadingAudio := false; awaited := None |}.
Proof.
  unfold handleFileUpload. rewrite loadFile_halves.
  unfold handleFileUpload_start, handleFileUpload_resume.
  destruct (loadFile_start f (audioEngine (shown p))) as [e promise].
  cbn [fst snd shown awaited audioEngine].
  destruct (loadFile_settle decodeAudioData promise e) as [e' [err|ab]];
    reflexivity.
Qed.

Lemma setStemVolume_fields s v e :
  buffer (setStemVolume s v e) = buffer e
  /\ Engine.isPlaying (setStemVolume s v e) = Engine.isPlaying e
  /\ pausedAt (setStemVolume s v e) = pausedAt e
  /\ state <$> context (setStemVolume s v e) = state <$> context e.
Proof.
  unfold setStemVolume.
  destruct (context e) as [c|] eqn:Hc;
    [destruct s, (lowGain e), (midGain e), (highGain e)|];
    cbv beta iota; rewrite ?Hc; repeat split; reflexivity.
Qed.

Lemma reapplyVolumes_fields t e :
  buffer (reapplyVolumes t e) = buffer e
  /\ Engine.isPlaying (reapplyVolumes t e) = Engine.isPlaying e
  /\ pausedAt (reapplyVolumes t e) = pausedAt e
  /\ state <$> context (reapplyVolumes t e) = state <$> context e.
Proof.
  unfold reapplyVolumes. cbn [foldl].
  repeat match goal with
         | |- context [setStemVolume ?k ?v ?x] =>
             let H := fresh in
             pose proof (setStemVolume_fields k v x) as H;
             destruct H as (-> & -> & -> & ->)
         end.
  auto.
Qed.

Lemma tick_state d e :
  state <$> context (tick d e) = state <$> context e.
Proof.
  unfold tick. simpl. destruct (context e) as [c|]; [|reflexivity].
  simpl. unfold advance. destruct (state c) eqn:Hs; simpl; congruence.
Qed.

Lemma seek_unloaded t e : buffer e = None -> seek t e = (e, None).
Proof. intros Hb. unfold seek. rewrite Hb. destruct (context e); reflexivity. Qed.

(** A load that finds the engine idle on a context that is not suspended
    is the second half of a load. *)
Lemma loadFile_resumed file e c ab :
  context e = Some c -> state c <> Suspended -> Engine.isPlaying e = false ->
  decodeAudioData file = Some ab ->
  loadFile decodeAudioData file e
  = (set_startTime 0 (set_pausedAt 0 (set_buffer (Some ab) e)), inr ab).
Proof.
  intros Hc Hst Hp Hdec.
  assert (Hres : resumeIfSuspended c = c).
  { unfold resumeIfSuspended. destruct (state c); congruence. }
  unfold loadFile. rewrite Hc, Hdec. unfold stop. rewrite (pause_idle _ Hp).
  destruct e. cbn in Hc. subst. cbn. rewrite Hres. reflexivity.
Qed.

(** A handler that leaves the file on display, the play flag down and the
    engine without buffer, idle and in the same context state does not end
    the loading phase. *)
Lemma loading_keep promise (s s' : AppState File) :
  loading promise s ->
  file s' = file s -> isPlaying s' = false ->
  buffer (audioEngine s') = buffer (audioEngine s) ->
  Engine.isPlaying (audioEngine s') = Engine.isPlaying (audioEngine s) ->
  0 <= pausedAt (audioEngine s') ->
  state <$> context (audioEngine s') = state <$> context (audioEngine s) ->
  loading promise s'.
Proof.
  intros (Hf & Hui & Hp & Hb & Hat & Hc) Hf' Hui' Hb' Hp' Hat' Hc'.
  unfold loading. rewrite Hf', Hb', Hp', Hc'. auto 10.
Qed.

(** While a load is pending. *)
Lemma loading_act promise (p : Player File) a :
  possible a -> Reachable (audioEngine (shown p)) ->
  awaited p = Some promise -> loadingAudio p = true ->
  loading promise (shown p) ->
  inStep (act decodeAudioData p a).
Proof.
  intros Hposs Hr Haw Hl Hload.
  pose proof Hload as (Hf & Hui & Hp & Hb & Hat & Hc).
  assert (Hsame : inStep p).
  { split; [exact Hr|]. rewrite Haw. auto. }
  unfold act, offered.
  destruct (file (shown p)) as [f0|] eqn:Hfile; [|congruence].
  destruct a as [f| | | |t|id v|id| |d]; simpl in Hposs;
    try exact Hsame.
  - (* the promise settles *)
    unfold handleFileUpload_resume. rewrite Haw.
    destruct promise as [reason|f]; cbn [loadFile_settle].
    + split; [exact Hr|]. cbn [shown awaited loadingAudio audioEngine].
      split; [reflexivity|]. unfold idle. cbn [file isPlaying audioEngine].
      auto.
    + destruct (decodeAudioData f) as [ab|] eqn:Hdec;
        [|split; [exact Hr|]; cbn [shown awaited loadingAudio audioEngine];
          split; [reflexivity|]; unfold idle; cbn [file isPlaying audioEngine];
          auto].
      destruct Hc as (st & Hst & Hrun).
      destruct (context (audioEngine (shown p))) as [c|] eqn:Hctx;
        [|discriminate].
      injection Hst as Hst.
      assert (Heq :
        (loadFile decodeAudioData f (audioEngine (shown p)))
        = (set_startTime 0 (set_pausedAt 0
             (set_buffer (Some ab) (audioEngine (shown p)))), inr ab)).
      { apply (loadFile_resumed f _ c ab); try assumption. congruence. }
      pose proof (Reachable_sound _ Hr) as (Hwf & _).
      destruct (loadFile_loaded decodeAudioData f _ _ ab Hwf Heq)
        as (HI & Hp' & _).
      split; cbn [shown awaited loadingAudio audioEngine].
      * change (set_startTime 0 (set_pausedAt 0
                  (set_buffer (Some ab) (audioEngine (shown p)))))
          with (set_startTime 0 (set_pausedAt 0
                  (set_buffer (Some ab) (audioEngine (shown p)))),
                @inr Exn AudioBuffer ab).1.
        rewrite <- Heq. apply Reachable_loadFile, Hr.
      * split; [reflexivity|]. unfold idle. cbn [file audioEngine isPlaying duration].
        rewrite Hfile. exists ab. auto.
  - (* play / pause: the button is disabled *)
    rewrite Hl. exact Hsame.
  - (* stop *)
    split; [apply Reachable_stop, Hr|]. cbn [handle awaited loadingAudio shown].
    rewrite Haw. split; [exact Hl|].
    apply (loading_keep promise (shown p) _ Hload);
      cbn [handleStop file isPlaying audioEngine];
      unfold stop; rewrite ?(pause_idle _ Hp); try reflexivity.
    cbn [set_pausedAt pausedAt]. lra.
  - (* seek *)
    split; [apply Reachable_seek, Hr|]. cbn [handle awaited loadingAudio shown].
    rewrite Haw. split; [exact Hl|].
    apply (loading_keep promise (shown p) _ Hload);
      cbn [handleSeek file isPlaying audioEngine];
      rewrite ?(seek_unloaded _ _ Hb); cbn [fst]; try reflexivity;
      assumption.
  - (* slider *)
    split; cbn [handle awaited loadingAudio shown].
    + cbn [handleStemVolumeChange audioEngine].
      destruct (get id (stemMutes (shown p)));
        [exact Hr|apply Reachable_setStemVolume, Hr].
    + rewrite Haw. split; [exact Hl|].
      destruct (setStemVolume_fields id v (audioEngine (shown p)))
        as (Eb & Ep & Eat & Ec).
      apply (loading_keep promise (shown p) _ Hload);
        cbn [handleStemVolumeChange file isPlaying audioEngine];
        destruct (get id (stemMutes (shown p)));
        rewrite ?Eat; try reflexivity; assumption.
  - (* mute *)
    split; cbn [handle awaited loadingAudio shown];
      [apply Reachable_setStemVolume, Hr|].
    rewrite Haw. split; [exact Hl|].
    apply (loading_keep promise (shown p) _ Hload);
      cbn [handleStemMute file isPlaying audioEngine];
      try reflexivity; try assumption;
      try apply setStemVolume_fields.
    rewrite (proj1 (proj2 (proj2 (setStemVolume_fields _ _ _)))). exact Hat.
  - (* timer *)
    unfold handle, fireTimer.
    destruct (timers (shown p)) as [|tm ts] eqn:Htm.
    { split; [exact Hr|]. cbn [awaited loadingAudio shown]. rewrite Haw. auto. }
    destruct (reapplyVolumes_fields tm (audioEngine (shown p)))
      as (Eb & Ep & Eat & Ec).
    split; cbn [awaited loadingAudio shown audioEngine].
    + apply (reapplyVolumes_keeps (mkAudioBuffer 0 0 0) tm _ Hr).
    + rewrite Haw. split; [exact Hl|].
      apply (loading_keep promise (shown p) _ Hload);
        cbn [file isPlaying audioEngine];
        rewrite ?Eat; try reflexivity; assumption.
  - (* time passes *)
    split; [apply Reachable_tick, Hr|]. cbn [handle awaited loadingAudio shown].
    rewrite Haw. split; [exact Hl|].
    destruct (tick_frame d (audioEngine (shown p))) as (Eb & Ep & _ & Eat & _).
    apply (loading_keep promise (shown p) _ Hload);
      cbn [elapse with_engine file isPlaying audioEngine];
      rewrite ?Eat; try reflexivity; try assumption.
    apply tick_state.
Qed.

(** With no load pending and no file on display. *)
Lemma picker_act (p : Player File) a :
  possible a -> Reachable (audioEngine (shown p)) ->
  awaited p = None -> loadingAudio p = false ->
  file (shown p) = None -> idle (shown p) ->
  inStep (act decodeAudioData p a).
Proof.
  intros Hposs Hr Haw Hl Hfile Hidle.
  assert (Hsame : inStep p).
  { split; [exact Hr|]. rewrite Haw. auto. }
  unfold idle in Hidle. rewrite Hfile in Hidle.
  destruct Hidle as (Hui & Hp & Hb & Hat).
  unfold act, offered. rewrite Hfile.
  destruct a as [f| | | |t|id v|id| |d]; simpl in Hposs;
    try exact Hsame.
  - (* upload *)
    unfold handleFileUpload_start.
    destruct (loadFile_start f (audioEngine (shown p))) as [e promise] eqn:Hs.
    assert (He : e = (loadFile_start f (audioEngine (shown p))).1)
      by (rewrite Hs; reflexivity).
    split; cbn [shown awaited loadingAudio audioEngine].
    + rewrite He, loadFile_start_failed. apply Reachable_loadFile, Hr.
    + split; [reflexivity|]. unfold loading.
      cbn [file isPlaying audioEngine].
      split; [discriminate|]. split; [exact Hui|].
      revert Hs. unfold loadFile_start.
      destruct (context (audioEngine (shown p))) as [c|] eqn:Hctx;
        intros [= <- <-].
      * unfold stop. rewrite (pause_idle _ Hp). simpl.
        split; [exact Hp|]. split; [reflexivity|]. split; [lra|].
        rewrite Hctx. simpl. exists (state (resumeIfSuspended c)).
        split; [reflexivity|].
        unfold resumeIfSuspended. destruct (state c) eqn:Hst; simpl; congruence.
      * rewrite Hctx. auto.
  - (* a promise settles: none is pending *)
    unfold handleFileUpload_resume. rewrite Haw. exact Hsame.
  - (* timer *)
    unfold handle, fireTimer.
    destruct (timers (shown p)) as [|tm ts] eqn:Htm; [exact Hsame|].
    destruct (reapplyVolumes_fields tm (audioEngine (shown p)))
      as (Eb & Ep & Eat & Ec).
    split; cbn [awaited loadingAudio shown audioEngine].
    + apply (reapplyVolumes_keeps (mkAudioBuffer 0 0 0) tm _ Hr).
    + rewrite Haw. split; [exact Hl|]. unfold idle.
      cbn [file isPlaying audioEngine]. rewrite Hfile, Ep, Eb, Eat. auto.
  - (* time passes *)
    destruct (tick_frame d (audioEngine (shown p))) as (Eb & Ep & _ & Eat & _).
    split; [apply Reachable_tick, Hr|]. cbn [handle awaited loadingAudio shown].
    rewrite Haw. split; [exact Hl|]. unfold idle.
    cbn [elapse with_engine file isPlaying audioEngine].
    rewrite Hfile, Ep, Eb, Eat. auto.
Qed.

(** With no load pending and a file on display. *)
Lemma transport_act (p : Player File) a f0 :
  possible a -> Reachable (audioEngine (shown p)) ->
  awaited p = None -> loadingAudio p = false ->
  file (shown p) = Some f0 -> idle (shown p) ->
  inStep (act decodeAudioData p a).
Proof.
  intros Hposs Hr Haw Hl Hfile Hidle.
  assert (Hsame : inStep p).
  { split; [exact Hr|]. rewrite Haw. auto. }
  unfold idle in Hidle. rewrite Hfile in Hidle.
  destruct Hidle as (b & HI & Hagree & Hdur).
  unfold act, offered. rewrite Hfile.
  destruct a as [f| | | |t|id v|id| |d]; simpl in Hposs;
    try exact Hsame.
  - (* a promise settles: none is pending *)
    unfold handleFileUpload_resume. rewrite Haw. exact Hsame.
  - (* play / pause *)
    rewrite Hl. cbn [negb]. unfold handle, handlePlayPause. rewrite Hfile.
    destruct (isPlaying (shown p)) eqn:Hui.
    + destruct (Inv_pause b _ HI) as [HI' Hp'].
      split; [apply Reachable_pause, Hr|].
      cbn [awaited loadingAudio shown]. rewrite Haw. split; [exact Hl|].
      unfold idle. cbn [file isPlaying audioEngine duration]. rewrite ?Hfile.
      exists b. auto.
    + pose proof HI as (c & Hc & Hb & Hat & _).
      symmetry in Hagree.
      destruct (play_starts _ c b Hc Hb Hagree Hat) as (e' & Hplay & Hp' & _).
      rewrite Hplay.
      assert (He' : e' = (play (audioEngine (shown p))).1)
        by (rewrite Hplay; reflexivity).
      split; cbn [awaited loadingAudio shown audioEngine];
        [rewrite He'; apply Reachable_play, Hr|].
      rewrite Haw. split; [exact Hl|].
      unfold idle. cbn [file isPlaying audioEngine duration]. rewrite ?Hfile.
      exists b. rewrite He' at 1.
      split; [apply (Inv_play b), HI|]. auto.
  - (* stop *)
    split; [apply Reachable_stop, Hr|].
    cbn [handle awaited loadingAudio shown]. rewrite Haw. split; [exact Hl|].
    unfold idle. cbn [handleStop file isPlaying audioEngine duration].
    rewrite ?Hfile. exists b.
    destruct (Inv_stop b _ HI) as [HI' _]. destruct (Inv_pause b _ HI) as [_ Hp'].
    auto.
  - (* seek *)
    split; [apply Reachable_seek, Hr|].
    cbn [handle awaited loadingAudio shown]. rewrite Haw. split; [exact Hl|].
    unfold idle. cbn [handleSeek file isPlaying audioEngine duration].
    rewrite ?Hfile. exists b.
    destruct (Inv_seek b t _ HI Hposs) as [HI' _].
    rewrite (isPlaying_seek b t _ HI Hposs). auto.
  - (* slider *)
    split; cbn [handle awaited loadingAudio shown].
    + cbn [handleStemVolumeChange audioEngine].
      destruct (get id (stemMutes (shown p)));
        [exact Hr|apply Reachable_setStemVolume, Hr].
    + rewrite Haw. split; [exact Hl|].
      unfold idle. cbn [handleStemVolumeChange file isPlaying audioEngine duration].
      rewrite ?Hfile. exists b.
      destruct (get id (stemMutes (shown p))); [auto|].
      destruct (Inv_setStemVolume b id v _ HI) as [HI' ->]. auto.
  - (* mute *)
    split; cbn [handle awaited loadingAudio shown];
      [apply Reachable_setStemVolume, Hr|].
    rewrite Haw. split; [exact Hl|].
    unfold idle. cbn [handleStemMute file isPlaying audioEngine duration].
    rewrite ?Hfile. exists b. rewrite isPlaying_setStemVolume.
    split; [apply Inv_setStemVolume, HI|]. auto.
  - (* timer *)
    unfold handle, fireTimer.
    destruct (timers (shown p)) as [|tm ts] eqn:Htm; [exact Hsame|].
    split; cbn [awaited loadingAudio shown audioEngine].
    + apply (reapplyVolumes_keeps (mkAudioBuffer 0 0 0) tm _ Hr).
    + rewrite Haw. split; [exact Hl|].
      unfold idle. cbn [file isPlaying audioEngine duration]. rewrite ?Hfile.
      exists b. destruct (reapplyVolumes_keeps b tm _ Hr) as (_ & HI' & ->). auto.
  - (* time passes *)
    split; [apply Reachable_tick, Hr|].
    cbn [handle awaited loadingAudio shown]. rewrite Haw. split; [exact Hl|].
    unfold idle. cbn [elapse with_engine file isPlaying audioEngine duration].
    rewrite ?Hfile. exists b.
    split; [apply Inv_tick; assumption|]. auto.
Qed.

(** Every possible action keeps the component and the engine in step. *)
Lemma inStep_act (p : Player File) a :
  possible a -> inStep p -> inStep (act decodeAudioData p a).
Proof.
  intros Hposs [Hr Hphase].
  destruct (awaited p) as [promise|] eqn:Haw; destruct Hphase as [Hl Hphase].
  - apply (loading_act promise); assumption.
  - destruct (file (shown p)) as [f0|] eqn:Hfile.
    + apply (transport_act p a f0); assumption.
    + apply picker_act; assumption.
Qed.

Lemma inStep_perform actions : forall p : Player File,
  Forall possible actions -> inStep p ->
  inStep (perform decodeAudioData p actions).
Proof.
  induction actions as [|a actions IH]; intros p Hposs Hp; [exact Hp|].
  apply Forall_cons in Hposs as [Ha Hposs]. simpl.
  apply IH; [exact Hposs|]. apply inStep_act; assumption.
Qed.

(** From the first render on, whatever the user does with the controls
    the page offers (seek targets not negative) and however time passes
    and loads settle: while a file is shown, the Play/Pause button shows
    what the engine does and the position of the engine is not negative.
    Once the audio has loaded, the duration on display is the engine's and
    the engine holds a buffer.  While the audio is loading the file is
    shown already but the engine holds no buffer and nothing plays, and
    the Play/Pause button does nothing. *)
Theorem player_agrees_with_engine platform actions :
  Forall possible actions ->
  file (shown (perform decodeAudioData (mounted platform) actions)) <> None ->
  isPlaying (shown (perform decodeAudioData (mounted platform) actions))
  = Engine.isPlaying
      (audioEngine (shown (perform decodeAudioData (mounted platform) actions)))
  /\ 0 <= getCurrentTime
            (audioEngine (shown (perform decodeAudioData (mounted platform) actions)))
  /\ (loadingAudio (perform decodeAudioData (mounted platform) actions) = false ->
      duration (shown (perform decodeAudioData (mounted platform) actions))
      = getDuration
          (audioEngine (shown (perform decodeAudioData (mounted platform) actions)))
      /\ is_Some (buffer
           (audioEngine (shown (perform decodeAudioData (mounted platform) actions)))))
  /\ (loadingAudio (perform decodeAudioData (mounted platform) actions) = true ->
      buffer (audioEngine (shown (perform decodeAudioData (mounted platform) actions)))
      = None
      /\ isPlaying (shown (perform decodeAudioData (mounted platform) actions)) = false
      /\ act decodeAudioData
           (perform decodeAudioData (mounted platform) actions) PlayPause
         = perform decodeAudioData (mounted platform) actions).
Proof.
  intros Hposs Hf.
  assert (H0 : inStep (mounted (File := File) platform)).
  { split; [apply Reachable_new|]. simpl. unfold idle. simpl.
    repeat split; try reflexivity. lra. }
  pose proof (inStep_perform actions _ Hposs H0) as [_ Hphase].
  destruct (awaited (perform decodeAudioData (mounted platform) actions))
    as [promise|]; destruct Hphase as [Hl Hphase]; rewrite Hl.
  - destruct Hphase as (_ & Hui & Hp & Hb & Hat & _).
    split; [congruence|]. split; [|split; [discriminate|]].
    + unfold getCurrentTime. rewrite Hp.
      destruct (context _); exact Hat.
    + intros _. split; [exact Hb|]. split; [exact Hui|].
      unfold act, offered. rewrite Hl.
      destruct (file _); reflexivity.
  - unfold idle in Hphase.
    destruct (file (shown (perform decodeAudioData (mounted platform) actions)))
      as [f0|]; [|congruence].
    destruct Hphase as (b & HI & Hagree & Hdur).
    pose proof HI as (c & Hc & Hb & _).
    split; [exact Hagree|]. split; [apply (Inv_position b), HI|].
    split; [|discriminate]. intros _. split.
    + unfold getDuration. rewrite Hb. exact Hdur.
    + rewrite Hb. eauto.
Qed.

End ComponentInvariant.

Section UploadOutcome.
Import WebAudio Engine Transport App.

Context {File : Type}.
Variable decodeAudioData : File -> option AudioBuffer.

(** What an upload does to the component.  It never touches the sliders,
    the mute buttons or a pending timer.  When the file decodes, the file
    is shown with the duration of the decoded buffer, not playing, at
    time 0 and with no error.  When it does not decode, and also when the
    browser has no audio context at all, the component goes back to the
    file picker with the message about decoding, and keeps the duration and
    the play flag it had; the engine, if it has a context, is left without
    a buffer. *)
Theorem upload_outcome f (s : AppState File) :
  stemVolumes (handleFileUpload decodeAudioData f s) = stemVolumes s
  /\ stemMutes (handleFileUpload decodeAudioData f s) = stemMutes s
  /\ timers (handleFileUpload decodeAudioData f s) = timers s
  /\ (forall ab,
      is_Some (context (audioEngine s)) -> decodeAudioData f = Some ab ->
      file (handleFileUpload decodeAudioData f s) = Some f
      /\ duration (handleFileUpload decodeAudioData f s) = WebAudio.duration ab
      /\ isPlaying (handleFileUpload decodeAudioData f s) = false
      /\ currentTime (handleFileUpload decodeAudioData f s) = 0
      /\ errorMsg (handleFileUpload decodeAudioData f s) = None
      /\ buffer (audioEngine (handleFileUpload decodeAudioData f s)) = Some ab)
  /\ (context (audioEngine s) = None \/ decodeAudioData f = None ->
      file (handleFileUpload decodeAudioData f s) = None
      /\ errorMsg (handleFileUpload decodeAudioData f s)
         = Some "Failed to decode audio file. Please use WAV or high-quality MP3."%string
      /\ isPlaying (handleFileUpload decodeAudioData f s) = isPlaying s
      /\ duration (handleFileUpload decodeAudioData f s) = duration s
      /\ (is_Some (context (audioEngine s)) ->
          buffer (audioEngine (handleFileUpload decodeAudioData f s)) = None)).
Proof.
  unfold handleFileUpload, loadFile.
  destruct (context (audioEngine s)) as [c|] eqn:Hc;
    [destruct (decodeAudioData f) as [ab|] eqn:Hdec|]; simpl;
    repeat split; try reflexivity; intros;
    repeat match goal with
           | H : _ \/ _ |- _ => destruct H
           | H : is_Some None |- _ => destruct H as [? H]
           end;
    try discriminate; congruence.
Qed.

End UploadOutcome.

(** ** The bars of the visualizer *)

Section VisualizerBars.
Import WebAudio Engine Transport Visualizer.

Lemma uint8Array_length n w : length (uint8Array n w) = n.
Proof. unfold uint8Array. rewrite length_map, length_seq. reflexivity. Qed.

Lemma uint8Array_bytes n w :
  Forall (fun v => (v <= 255)%nat) w ->
  Forall (fun v => (v <= 255)%nat) (uint8Array n w).
Proof.
  intros H. unfold uint8Array. apply List.Forall_forall. intros v Hv.
  apply in_map_iff in Hv as (i & <- & _).
  destruct (nth_in_or_default i w 0%nat) as [Hin| ->]; [|lia].
  rewrite List.Forall_forall in H. apply H, Hin.
Qed.

Lemma drawBars_length w x l : length (drawBars w x l) = length l.
Proof.
  revert x. induction l as [|v l IH]; intros x; simpl; [reflexivity|].
  rewrite IH. reflexivity.
Qed.

(** Bar [i] stands [i] steps of [barWidth + 2] to the right of the start,
    is as high as its byte says and sits on the bottom of the canvas. *)
Lemma drawBars_lookup w l : forall x i r,
  drawBars w x l !! i = Some r ->
  exists v, l !! i = Some v
            /\ rx r == x + inject_Z (Z.of_nat i) * (w + 2)
            /\ rw r = w
            /\ rh r = (inject_Z (Z.of_nat v) / 255) * height
            /\ ry r = height - rh r.
Proof.
  induction l as [|v l IH]; intros x i r Hr; [discriminate|].
  destruct i as [|i]; simpl in Hr.
  - injection Hr as <-. exists v. simpl. repeat split. ring.
  - destruct (IH _ _ _ Hr) as (v' & Hv & Hx & Hw & Hh & Hy).
    exists v'. repeat split; auto.
    rewrite Hx, Nat2Z.inj_succ. unfold Z.succ. rewrite inject_Z_plus. ring.
Qed.

Lemma barHeight_bounds v :
  (v <= 255)%nat ->
  0 <= (inject_Z (Z.of_nat v) / 255) * height
  /\ (inject_Z (Z.of_nat v) / 255) * height <= height.
Proof.
  intros Hv.
  assert (H0 : 0 <= inject_Z (Z.of_nat v)).
  { change 0 with (inject_Z 0). rewrite <- Zle_Qle. lia. }
  assert (H1 : inject_Z (Z.of_nat v) <= 255).
  { change 255 with (inject_Z 255). rewrite <- Zle_Qle. lia. }
  unfold height, Qdiv. change (/ 255) with (1 # 255). split; lra.
Qed.

Lemma bar_off_canvas i :
  width <= inject_Z (Z.of_nat i) * (253 # 64) <-> (203 <= i)%nat.
Proof.
  unfold width, Qle, Qmult, inject_Z. simpl. lia.
Qed.

(** What a pass of [render] draws once a graph has been built, for an
    analyser that writes bytes: 1024 bars, one per frequency bin of the
    2048-point analyser; each is 125/64 px wide, sits on the bottom edge
    and is between 0 and the canvas height high; bar [i] starts at
    [i * 253/64] px, so on the 800 px canvas the bars from number 203 on
    start beyond the right edge. *)
Theorem render_draws_bars
    (data : AudioContext -> NodeRef -> nat -> list nat) e c b :
  (forall c' a n, Forall (fun v => (v <= 255)%nat) (data c' a n)) ->
  context e = Some c -> buffer e = Some b -> isPlaying e = false ->
  exists rects,
    renderRects data (play e).1 (getAnalyser (play e).1) = Some rects
    /\ length rects = 1024%nat
    /\ forall i r, rects !! i = Some r ->
         rx r == inject_Z (Z.of_nat i) * (253 # 64)
         /\ rw r == 125 # 64
         /\ ry r + rh r == height
         /\ 0 <= rh r /\ rh r <= height
         /\ (width <= rx r <-> (203 <= i)%nat).
Proof.
  intros Hbytes Hc Hb Hp.
  destruct (play_graph e c b Hc Hb Hp) as (c' & Hc' & Hrefs & Hnodes & _).
  destruct (buildGraph_nodes b (resumeIfSuspended c)) as (_ & _ & Han & _).
  destruct (resumeIfSuspended_frame c) as (_ & _ & _ & Hn).
  rewrite Hn in Han. cbn [Nat.add] in Han.
  unfold graphRefs in Hrefs. injection Hrefs as _ _ Hanalyser _ _ _ _ _ _ _.
  unfold renderRects, getAnalyser. rewrite Hanalyser, Hc'.
  rewrite Hnodes by lia. rewrite Han.
  change (from_option frequencyBinCount 0%nat (Some (Analyser 2048 (85 # 100))))
    with 1024%nat.
  eexists. split; [reflexivity|].
  split; [rewrite drawBars_length; apply uint8Array_length|].
  intros i r Hr.
  destruct (drawBars_lookup _ _ _ _ _ Hr) as (v & Hv & Hx & Hw & Hh & Hy).
  assert (Hbyte : (v <= 255)%nat).
  { pose proof (uint8Array_bytes 1024 _ (Hbytes c' (S (S (nextRef c))) 1024%nat)) as HF.
    rewrite List.Forall_forall in HF. apply HF.
    apply list_elem_of_In, list_elem_of_lookup. eauto. }
  destruct (barHeight_bounds v Hbyte) as [Hlo Hhi].
  assert (Hx' : rx r == inject_Z (Z.of_nat i) * (253 # 64)).
  { rewrite Hx. unfold width. vm_compute (inject_Z (Z.of_nat 1024)). field. }
  split; [exact Hx'|]. split.
  { rewrite Hw. unfold width. reflexivity. }
  split; [rewrite Hy; ring|].
  rewrite Hh. split; [exact Hlo|]. split; [exact Hhi|].
  rewrite Hx'. apply bar_off_canvas.
Qed.

End VisualizerBars.

(** ** The time display *)

Section TimeDisplay.
Import App.

Lemma Qfloor_unique x z :
  inject_Z z <= x -> x < inject_Z (z + 1) -> Qfloor x = z.
Proof.
  intros Hlo Hhi.
  pose proof (Qfloor_le x) as H1. pose proof (Qlt_floor x) as H2.
  assert (Ha : inject_Z z < inject_Z (Qfloor x + 1)) by lra.
  assert (Hb : inject_Z (Qfloor x) < inject_Z (z + 1)) by lra.
  rewrite <- Zlt_Qlt in Ha, Hb. lia.
Qed.

Lemma seconds_two_digits (n : nat) :
  (n < 60)%nat ->
  String.length (String.append (if (Z.of_nat n <? 10)%Z then "0" else "")
                               (showZ (Z.of_nat n))) = 2%nat.
Proof.
  intros H. do 60 (destruct n as [|n]; [vm_compute; reflexivity|]). lia.
Qed.

(** [formatTime] on a time that is not negative: the text is the minutes,
    a colon, and the seconds on exactly two characters; the seconds are
    between 0 and 59, and minutes and seconds together are the whole
    seconds of the time. *)
Theorem formatTime_minutes_seconds time :
  0 <= time ->
  exists m s,
    formatTime time
    = String.append (showZ m)
        (String.append ":"
           (String.append (if (s <? 10)%Z then "0" else "") (showZ s)))
    /\ String.length
         (String.append (if (s <? 10)%Z then "0" else "") (showZ s)) = 2%nat
    /\ (0 <= m)%Z /\ (0 <= s <= 59)%Z
    /\ (60 * m + s)%Z = Qfloor time.
Proof.
  intros Hnn.
  exists (Qfloor (time / 60)), (Qfloor (jsRemainder time 60)).
  split; [reflexivity|].
  set (m := Qfloor (time / 60)).
  pose proof (Qfloor_le (time / 60)) as Hm1.
  pose proof (Qlt_floor (time / 60)) as Hm2.
  fold m in Hm1, Hm2. rewrite inject_Z_plus in Hm2.
  change (inject_Z 1) with 1 in Hm2.
  unfold Qdiv in Hm1, Hm2. change (/ 60) with (1 # 60) in Hm1, Hm2.
  assert (Hq : 0 <= time / 60).
  { unfold Qdiv. change (/ 60) with (1 # 60). lra. }
  assert (Hrem : jsRemainder time 60 == time - 60 * inject_Z m).
  { unfold jsRemainder, Qtruncate. apply Qle_bool_iff in Hq. rewrite Hq.
    reflexivity. }
  set (s := Qfloor (jsRemainder time 60)).
  pose proof (Qfloor_le (jsRemainder time 60)) as Hs1.
  pose proof (Qlt_floor (jsRemainder time 60)) as Hs2.
  fold s in Hs1, Hs2. rewrite inject_Z_plus in Hs2.
  change (inject_Z 1) with 1 in Hs2. rewrite Hrem in Hs1, Hs2.
  assert (Hm0 : (0 <= m)%Z).
  { assert (H : inject_Z 0 < inject_Z (m + 1)).
    { rewrite inject_Z_plus. change (inject_Z 1) with 1.
      change (inject_Z 0) with 0. lra. }
    rewrite <- Zlt_Qlt in H. lia. }
  assert (Hs0 : (0 <= s <= 59)%Z).
  { assert (Ha : inject_Z 0 < inject_Z (s + 1)).
    { rewrite inject_Z_plus. change (inject_Z 1) with 1.
      change (inject_Z 0) with 0. lra. }
    assert (Hb : inject_Z s < inject_Z 60) by (change (inject_Z 60) with 60; lra).
    rewrite <- Zlt_Qlt in Ha, Hb. lia. }
  split; [|split; [exact Hm0|split; [exact Hs0|]]].
  - replace s with (Z.of_nat (Z.to_nat s)) by lia.
    apply seconds_two_digits. lia.
  - symmetry. apply Qfloor_unique.
    + rewrite inject_Z_plus, inject_Z_mult. change (inject_Z 60) with 60. lra.
    + rewrite !inject_Z_plus, inject_Z_mult. change (inject_Z 60) with 60.
      change (inject_Z 1) with 1. lra.
Qed.

End TimeDisplay.

(** ** The properties above on the example states *)

Section MoreExamples.
Import WebAudio Engine Transport Examples.

Lemma Reachable_run evs : forall e, Reachable e -> Reachable (run e evs).
Proof.
  induction evs as [|ev evs IH]; intros e H; [exact H|].
  simpl. apply IH. destruct ev; simpl; auto using Reachable.
Qed.

Lemma Reachable_loaded : Reachable loaded.
Proof. apply Reachable_loadFile, Reachable_new. Qed.

Lemma Inv_loaded : Inv demoBuffer loaded.
Proof.
  eexists. split; [vm_compute; reflexivity|]. split; [vm_compute; reflexivity|].
  split; [vm_compute; discriminate|]. intros H. vm_compute in H. discriminate H.
Qed.

Lemma seek_play_elapse_witness :
  Inv demoBuffer loaded /\ running loaded
  /\ getCurrentTime (run loaded [Seek 5; Play; Tick 2]) == 5 + 2
  /\ getCurrentTime (run loaded [Seek 5; Play; Tick 2; Pause; Tick 3]) == 5 + 2
  /\ getCurrentTime (run loaded [Seek 5; Play; Tick 2; Stop]) = 0.
Proof.
  assert (Hr : running loaded) by (vm_compute; reflexivity).
  assert (H5 : 0 <= 5) by (vm_compute; discriminate).
  assert (H2 : 0 <= 2) by (vm_compute; discriminate).
  destruct (seek_play_elapse demoBuffer loaded 5 2 3 Inv_loaded Hr H5 H2)
    as (Ha & Hb & Hc & _).
  split; [exact Inv_loaded|]. split; [exact Hr|]. split; [exact Ha|].
  split; [exact Hb|exact Hc].
Defined.

Lemma loadFile_replaces_witness :
  Reachable playing /\ is_Some (context playing)
  /\ demoDecode demoFile = Some demoBuffer
  /\ exists e',
      loadFile demoDecode demoFile playing = (e', inr demoBuffer)
      /\ buffer e' = Some demoBuffer
      /\ isPlaying e' = false
      /\ getCurrentTime e' = 0
      /\ getDuration e' = duration demoBuffer.
Proof.
  assert (Hr : Reachable playing) by apply Reachable_run, Reachable_loaded.
  assert (Hc : is_Some (context playing)) by (vm_compute; eauto).
  destruct (loadFile_replaces demoDecode demoFile playing demoBuffer Hr Hc eq_refl)
    as (e' & Hl & Hb & Hp & Hpos & Hdur & _).
  split; [exact Hr|]. split; [exact Hc|]. split; [reflexivity|].
  exists e'. auto.
Defined.

Lemma playing_position_is_playhead_witness :
  Reachable playing /\ isPlaying playing = true
  /\ exists p, playhead playing = Some p /\ p == getCurrentTime playing
               /\ sourceBuffer playing = buffer playing.
Proof.
  assert (Hr : Reachable playing) by apply Reachable_run, Reachable_loaded.
  assert (Hp : isPlaying playing = true) by (vm_compute; reflexivity).
  destruct (playing_position_is_playhead playing Hr Hp) as (p & H1 & H2 & H3 & _).
  split; [exact Hr|]. split; [exact Hp|]. exists p. auto.
Defined.

Lemma bands_independent_witness :
  Reachable playing /\ low <> mid
  /\ stemGain mid (setStemVolume low 0 playing) = stemGain mid playing
  /\ getCurrentTime (setStemVolume low 0 playing) = getCurrentTime playing.
Proof.
  assert (Hr : Reachable playing) by apply Reachable_run, Reachable_loaded.
  assert (Hne : low <> mid) by discriminate.
  destruct (bands_independent playing low mid 0 Hr Hne) as (H1 & _ & H2 & _).
  split; [exact Hr|]. split; [exact Hne|]. split; [exact H1|exact H2].
Defined.

Lemma pause_silences_source_witness :
  exists c src,
    context playing = Some c /\ sourceNode playing = Some src
    /\ isPlaying playing = true
    /\ exists c', context (pause playing) = Some c'
                  /\ (forall j, (src, j) ∉ connections c')
                  /\ (forall i, i <> src -> nodes c' !! i = nodes c !! i).
Proof.
  eexists _, _.
  assert (Hc : context playing = Some _) by (vm_compute; reflexivity).
  assert (Hs : sourceNode playing = Some _) by (vm_compute; reflexivity).
  assert (Hp : isPlaying playing = true) by (vm_compute; reflexivity).
  destruct (pause_silences_source playing _ _ Hc Hs Hp)
    as (c' & Hc' & _ & Hcut & _ & Hrest & _).
  split; [exact Hc|]. split; [exact Hs|]. split; [exact Hp|].
  exists c'. auto.
Defined.

Lemma silence_bytes c a n : Forall (fun v => (v <= 255)%nat) (silence c a n).
Proof. unfold silence. induction n; simpl; constructor; [lia|assumption]. Qed.

Lemma render_draws_bars_witness :
  exists c,
    context loaded = Some c /\ buffer loaded = Some demoBuffer
    /\ isPlaying loaded = false
    /\ exists rects,
        Visualizer.renderRects silence (play loaded).1 (getAnalyser (play loaded).1)
        = Some rects
        /\ length rects = 1024%nat.
Proof.
  eexists.
  assert (Hc : context loaded = Some _) by (vm_compute; reflexivity).
  assert (Hb : buffer loaded = Some demoBuffer) by (vm_compute; reflexivity).
  assert (Hp : isPlaying loaded = false) by (vm_compute; reflexivity).
  destruct (render_draws_bars silence loaded _ demoBuffer silence_bytes Hc Hb Hp)
    as (rects & Hr & Hlen & _).
  split; [exact Hc|]. split; [exact Hb|]. split; [exact Hp|].
  exists rects. auto.
Defined.

Lemma formatTime_minutes_seconds_witness :
  0 <= 251 # 2
  /\ App.formatTime (251 # 2) = "2:05"%string
  /\ exists m s,
      App.formatTime (251 # 2)
      = String.append (App.showZ m)
          (String.append ":"
             (String.append (if (s <? 10)%Z then "0" else "") (App.showZ s)))
      /\ (60 * m + s)%Z = Qfloor (251 # 2).
Proof.
  assert (H : 0 <= 251 # 2) by (vm_compute; discriminate).
  destruct (formatTime_minutes_seconds (251 # 2) H) as (m & s & Hf & _ & _ & _ & Hsum).
  split; [exact H|]. split; [vm_compute; reflexivity|].
  exists m, s. auto.
Defined.

End MoreExamples.

Section MoreComponentExamples.
Import WebAudio Engine Transport App Examples.

(** The paused player with the low slider at one half and the mids muted. *)
Lemma play_button_reapplies_volumes_witness :
  exists c,
    file (handleStemMute mid (handleStemVolumeChange low (1 # 2) appPaused)) <> None
    /\ context (audioEngine
                  (handleStemMute mid (handleStemVolumeChange low (1 # 2) appPaused)))
       = Some c
    /\ settled <$> stemGain low
         (audioEngine (fireTimer (elapse (5 # 100) (handlePlayPause
            (handleStemMute mid (handleStemVolumeChange low (1 # 2) appPaused))))))
       = Some (1 # 2)
    /\ settled <$> stemGain mid
         (audioEngine (fireTimer (elapse (5 # 100) (handlePlayPause
            (handleStemMute mid (handleStemVolumeChange low (1 # 2) appPaused))))))
       = Some 0.
Proof.
  eexists.
  assert (Hf : file (handleStemMute mid (handleStemVolumeChange low (1 # 2) appPaused))
               <> None) by (vm_compute; discriminate).
  assert (Hc : context (audioEngine
                 (handleStemMute mid (handleStemVolumeChange low (1 # 2) appPaused)))
               = Some _) by (vm_compute; reflexivity).
  assert (Hui : isPlaying (handleStemMute mid
                   (handleStemVolumeChange low (1 # 2) appPaused)) = false)
    by (vm_compute; reflexivity).
  assert (Ht : timers (handleStemMute mid
                   (handleStemVolumeChange low (1 # 2) appPaused)) = [])
    by (vm_compute; reflexivity).
  assert (Hb : buffer (audioEngine (handleStemMute mid
                   (handleStemVolumeChange low (1 # 2) appPaused)))
               = Some demoBuffer) by (vm_compute; reflexivity).
  assert (Hp : Engine.isPlaying (audioEngine (handleStemMute mid
                   (handleStemVolumeChange low (1 # 2) appPaused))) = false)
    by (vm_compute; reflexivity).
  assert (Hoff : 0 <= pausedAt (audioEngine (handleStemMute mid
                   (handleStemVolumeChange low (1 # 2) appPaused))))
    by (vm_compute; discriminate).
  destruct (play_button_reapplies_volumes _ _ demoBuffer (5 # 100)
              Hf Hui Ht Hc Hb Hp Hoff) as (_ & _ & _ & Hk).
  split; [exact Hf|]. split; [exact Hc|].
  split; [exact (proj2 (Hk low))|exact (proj2 (Hk mid))].
Defined.

(** A file is uploaded to a browser that starts the context suspended;
    while it decodes the user stops and seeks; then it is played, sought,
    a band is muted, the timer fires, and it is paused, stopped and played
    again. *)
Lemma player_agrees_with_engine_witness :
  Forall possible
    [Upload demoFile; StopClick; SeekTo 3; UploadSettles; PlayPause; Elapse 1;
     SeekTo 3; MuteToggle low; TimerFires; PlayPause; StopClick; PlayPause]
  /\ file (shown (perform demoDecode (mounted (Some Suspended))
             [Upload demoFile; StopClick; SeekTo 3; UploadSettles; PlayPause;
              Elapse 1; SeekTo 3; MuteToggle low; TimerFires; PlayPause;
              StopClick; PlayPause])) <> None
  /\ isPlaying (shown (perform demoDecode (mounted (Some Suspended))
             [Upload demoFile; StopClick; SeekTo 3; UploadSettles; PlayPause;
              Elapse 1; SeekTo 3; MuteToggle low; TimerFires; PlayPause;
              StopClick; PlayPause]))
     = Engine.isPlaying (audioEngine (shown (perform demoDecode
         (mounted (Some Suspended))
             [Upload demoFile; StopClick; SeekTo 3; UploadSettles; PlayPause;
              Elapse 1; SeekTo 3; MuteToggle low; TimerFires; PlayPause;
              StopClick; PlayPause]))).
Proof.
  assert (Hposs : Forall (possible (File := list nat))
    [Upload demoFile; StopClick; SeekTo 3; UploadSettles; PlayPause; Elapse 1;
     SeekTo 3; MuteToggle low; TimerFires; PlayPause; StopClick; PlayPause]).
  { repeat constructor; vm_compute; discriminate. }
  assert (Hf : file (shown (perform demoDecode (mounted (Some Suspended))
             [Upload demoFile; StopClick; SeekTo 3; UploadSettles; PlayPause;
              Elapse 1; SeekTo 3; MuteToggle low; TimerFires; PlayPause;
              StopClick; PlayPause])) <> None)
    by (vm_compute; discriminate).
  destruct (player_agrees_with_engine demoDecode (Some Suspended) _ Hposs Hf)
    as (Hagree & _).
  split; [exact Hposs|]. split; [exact Hf|exact Hagree].
Defined.

End MoreComponentExamples.

(** ** A seek target below zero *)

Section NegativeSeek.
Import WebAudio Engine Transport.

(** On a loaded engine that is not playing, a negative seek target is
    stored and reported as it is; the next [play] throws the RangeError of
    [start], leaves the engine not playing and the position where it was;
    a seek to a target that is not negative followed by [play] then plays
    from that target. *)
Theorem negative_seek_recovers e c b t t' :
  context e = Some c -> buffer e = Some b -> isPlaying e = false ->
  t < 0 -> 0 <= t' ->
  getCurrentTime (seek t e).1 = t
  /\ (play (seek t e).1).2 = Some RangeError
  /\ isPlaying (play (seek t e).1).1 = false
  /\ getCurrentTime (play (seek t e).1).1 = t
  /\ (play (seek t' (play (seek t e).1).1).1).2 = None
  /\ isPlaying (play (seek t' (play (seek t e).1).1).1).1 = true
  /\ getCurrentTime (play (seek t' (play (seek t e).1).1).1).1 == t'.
Proof.
  intros Hc Hb Hp Hneg Hnn.
  assert (H1 : (seek t e).1 = set_pausedAt t e).
  { unfold seek. rewrite Hc, Hb, Hp. reflexivity. }
  rewrite H1.
  assert (Hc1 : context (set_pausedAt t e) = Some c) by exact Hc.
  assert (Hb1 : buffer (set_pausedAt t e) = Some b) by exact Hb.
  assert (Hp1 : isPlaying (set_pausedAt t e) = false) by exact Hp.
  destruct (play_negative _ c b Hc1 Hb1 Hp1 Hneg) as (e2 & Hplay & Hp2 & Hat2 & _ & Hb2).
  destruct (play_graph _ c b Hc1 Hb1 Hp1) as (c2 & Hc2 & _).
  rewrite Hplay in *. cbn [fst snd] in *.
  assert (H3 : (seek t' e2).1 = set_pausedAt t' e2).
  { unfold seek. rewrite Hc2, Hb2, Hp2. reflexivity. }
  rewrite H3.
  destruct (play_starts (set_pausedAt t' e2) c2 b Hc2 Hb2 Hp2 Hnn)
    as (e4 & Hplay4 & Hp4 & _ & _ & _ & _ & _ & Hpos4).
  rewrite Hplay4. cbn [fst snd].
  unfold getCurrentTime. rewrite Hc1, Hc2, Hp1, Hp2.
  repeat split; auto.
Qed.

Lemma negative_seek_recovers_witness :
  exists c,
    context Examples.loaded = Some c
    /\ (play (seek (-1) Examples.loaded).1).2 = Some RangeError
    /\ isPlaying (play (seek 4 (play (seek (-1) Examples.loaded).1).1).1).1 = true
    /\ getCurrentTime (play (seek 4 (play (seek (-1) Examples.loaded).1).1).1).1 == 4.
Proof.
  eexists.
  assert (Hc : context Examples.loaded = Some _) by (vm_compute; reflexivity).
  assert (Hb : buffer Examples.loaded = Some Examples.demoBuffer)
    by (vm_compute; reflexivity).
  assert (Hp : isPlaying Examples.loaded = false) by (vm_compute; reflexivity).
  assert (Hneg : -1 < 0) by reflexivity.
  assert (Hnn : 0 <= 4) by (vm_compute; discriminate).
  destruct (negative_seek_recovers Examples.loaded _ _ (-1) 4 Hc Hb Hp Hneg Hnn)
    as (_ & Hthrow & _ & _ & _ & Hplay & Hpos).
  split; [exact Hc|]. split; [exact Hthrow|]. split; [exact Hplay|exact Hpos].
Defined.

End NegativeSeek.
